(* ===== verification/_CoqProject ===== *)
-Q . S2P
Prelude.v
Json.v
Async.v
Gateway.v
AppContext.v
Email.v
Login.v
Flows.v
App.v
