(* ===== verification/Prelude.v ===== *)
(** * Verification of the User-Authentication browser client

    ** The program

    The repository's client ([src/client/src]) is a React application
    that keeps a user's signed-in state against a remote identity
    backend.  Three source files make it up:
    - [context/AppContext.jsx]: [AppContextProvider], the session store
      ([isLoggedIn], [userData]) shared by every page, with
      [getUserData] ([GET /profile]) and [getAuthState]
      ([GET /is-authenticated], then [getUserData]), run once at mount by
      a [useEffect]: the bootstrap sequence;
    - [pages/Login.jsx]: the dual-mode login / registration page, whose
      [onSubmitHandler] posts the credentials, then fetches the profile,
      marks the session logged in and navigates home;
    - [App.jsx]: the routes ["/"], ["/login"], ["/email-verify"],
      ["/reset-password"].
    Every backend call goes through axios with [withCredentials: true]:
    the session cookie is opaque to the client, which learns whether it
    is valid only by asking the backend.  Handlers are [async] functions
    that suspend only on those calls; the page updates between them.

    ** The library (files in dependency order)

    - [Prelude] (this file): the development's scope [auth_scope], hint
      database [auth], tactics, axios' 2xx test [is_2xx], and the
      last-binding lookup [assoc_last] of parsed JSON objects.
    - [Json]: the JavaScript values read from responses, with [=== true]
      ([strict_eq_true]), optional chaining ([get_field]), ToBoolean
      ([js_truthy]) and [||] ([js_or]).
    - [Async]: an [async] handler as a finite tree [prog] of synchronous
      effects ([Op], written [e ;; k]) and network awaits ([Await q k]);
      [pseq] is [await f(); rest]; [trace] runs a handler against a list
      of replies; [run] runs it up to its next await; [bounded n] says it
      settles after at most [n] replies.
    - [Gateway]: the four requests ([request], [to_http]), what the network
      delivers ([reply]) and axios' settlement ([axios_settle]); the
      backend's reading of a request ([from_http], section 6 of the
      specification).
    - [AppContext]: the store ([ctx_state], its setters [apply_effect]),
      [getUserData], [getAuthState], the bootstrap ([bootstrap]) and the
      value the provider hands to its consumers ([provider_value]).
    - [Email]: what the browser does with an [<input type="email">]: the
      value sanitization ([sanitize_email]), the validity check
      ([valid_email]) and the HTML grammar it decides ([email_spec]).
    - [Login]: the page's state ([form]), the try/catch block
      [submit_try] and the whole [onSubmitHandler] (with its [finally]),
      the JSX it renders ([render]), the constraint validation and the
      disabled button ([form_valid], [can_submit]); a submission run on
      one mounted page ([submit]).
    - [Flows]: the e-mail verification page, which [App.jsx] routes to
      but which is not among the sources, modelled from the
      specification: a generic orchestrator machine
      ([Section Orchestrator]: [oexec], [ostep]) instantiated by
      [Flows.EmailVerify].
    - [App]: the routes ([route]), the tab as a [world] (store, location,
      mounted Login instance with its identity, handlers in flight with
      their owner), its events ([exec]: a reply delivered to any in-flight
      request, submit, field edits, mode toggle, navigation) and the step
      relation [step] with [reachable].

    ** What the theorems show

    - Bootstrap (AppContext): the outcome for every reply of its two
      calls; the profile is requested only after a confirmed check; the
      bootstrap settles after two replies.  Where the code departs from
      the specification, the theorem states what the code does: a failed
      profile fetch leaves [isLoggedIn = true] with no profile; a reader
      sees [isLoggedIn = true] without profile while the profile is in
      flight; there is no [initialized] flag.
    - Login (Login, Email): the outcome of a submission for each kind of
      reply (success of login and of registration, rejection with the
      backend's message or the fallback text, a 2xx status that is not
      the expected one, a failed profile fetch after a login); the
      [finally] discipline on [loading]; termination.  What the rendered
      form lets through: constraint validation of the inputs [render]
      produces succeeds exactly when the e-mail is in the HTML address
      grammar (through [valid_email_iff], with the [split_on] /
      [String.concat] round trips), the password is non-empty and, in
      register mode, the name is; and the per-field check [form_valid]
      agrees with it.
    - Gateway: every request the client sends is read back by the
      backend as the same call with the same fields (a round trip).
    - App: the submit lock (a mounted Login page has one request in
      flight exactly while [loading]) is an invariant of every reachable
      state, proved by rule induction over [step] ([reachable_invariant]);
      a second submit cannot fire while a request is in flight; a Login
      instance is mounted exactly on the login route (well-formedness);
      at most [next_id + 1] requests are ever in flight, one per handler
      chain (a bound, from the invariant that no owner has two); the
      page's links lead to routed pages.  Three interleavings the code
      allows are stated as reachable states, each of which only that
      interleaving can produce: a reply moves a user who left the login
      page back to ["/"], logged in (a handler of the unmounted page);
      two requests post the same registration (a remounted page); the
      session is logged out while holding a profile (a late answer to
      the bootstrap check).
      Liveness: from every reachable state, with no further user action,
      answering the requests in flight (two replies per request at most,
      whatever they are) empties the pool ([pool_drains]).
    - Flows: the verification page's submit lock holds in every
      reachable state: an operation is in flight exactly while
      [Submitting], and then every invocation is rejected locally.

    ** Bounds and fuel

    No fuel is needed: every handler is a finite tree, and [bounded]
    bounds the replies it waits for (2 for [getAuthState] and for
    [onSubmitHandler]), so [trace_settles] turns "enough replies" into
    "the handler has settled".  Interleavings are explicit event lists;
    the network may answer in-flight requests in any order.  Microtask
    scheduling inside one reply is not split: the event loop drains the
    microtasks of one reply before delivering the next, so [await] of an
    inner [async] function is sequential composition.

    ** Not modelled

    [console.error] (logging); class names, styles, assets and toast
    display (toasts are kept as the list raised); axios beyond its
    settlement rule; request timeouts (the specification leaves them
    open).  [Home], [EmailVerify] and [ResetPassword] are imported by
    [App.jsx] but are not among the repository's sources.  [EmailVerify]
    is modelled from the specification in [Flows]; the specification does
    not give the paths of its endpoints, which are left out, nor the text
    of the generic fallback message, for which a placeholder text stands.
    It is modelled on its own, on the store it was mounted on; its
    interleaving with the bootstrap is the one [App] already shows for
    the Login page.  [ResetPassword] is specified only as a request and
    submit pair that never signs the user in, which a model written from
    that sentence satisfies by construction: no model of it is kept.
    [Home] is only "a landing screen gated on isAuthenticated" in the
    specification, with no behaviour of its own to model.  axios' own
    failure kinds (network versus HTTP error) are not classified beyond
    what the client reads ([error.response?.data?.message]).

    ** Plan for the next sittings

    1. The session store contract of the specification (section 4.2) as
       an interface (a [Module Type] of [getSession], [setAuthenticated],
       [setUnauthenticated] with its invariant), and the theorem locating
       which operations of the code break it.
    2. The verification page inside the tab model of [App] (its
       handlers as owners of the task pool), so that the bound on
       requests in flight and the liveness cover it too. *)

From Stdlib Require Export ZArith Bool.
From stdpp Require Export base list relations strings.

(** ** Notation scope of the development *)

Declare Scope auth_scope.
Delimit Scope auth_scope with auth.

(** ** Hint database shared by the components *)

Create HintDb auth.
Create Rewrite HintDb auth.

(** ** Tactics *)

(** [invc H] inverts a hypothesis and cleans up. *)
Ltac invc H := inversion H; subst; clear H.

(** ** HTTP status ranges (axios resolves exactly on 2xx) *)

(** [is_2xx s] is axios' default [validateStatus]:
    [status >= 200 && status < 300]. *)
Definition is_2xx (status : Z) : bool := (200 <=? status)%Z && (status <? 300)%Z.

(** ** Association lists with last-binding-wins lookup

    [JSON.parse] keeps the last of duplicated keys; the lookup below is
    that rule. *)

Definition assoc_last {V} (k : string) (fs : list (string * V)) : option V :=
  fold_left (fun acc kv => if String.eqb k kv.1 then Some kv.2 else acc) fs None.

Lemma is_2xx_spec status : is_2xx status = true <-> (200 <= status < 300)%Z.
Proof.
  unfold is_2xx. rewrite andb_true_iff, Z.leb_le, Z.ltb_lt. lia.
Qed.

Lemma fold_left_assoc_none {V} k (fs : list (string * V)) acc :
  Forall (fun kv => String.eqb k kv.1 = false) fs ->
  fold_left (fun acc kv => if String.eqb k kv.1 then Some kv.2 else acc) fs acc = acc.
Proof.
  revert acc. induction fs as [|[k' v] fs IH]; intros acc Hall; [done|].
  invc Hall. simpl in *. match goal with H : String.eqb _ _ = false |- _ => rewrite H end.
  by apply IH.
Qed.

(** A key bound once, with no later rebinding, is found. *)
Lemma assoc_last_hit {V} k (pre post : list (string * V)) v :
  Forall (fun kv => String.eqb k kv.1 = false) post ->
  assoc_last k (pre ++ (k, v) :: post) = Some v.
Proof.
  intros Hpost. unfold assoc_last. rewrite fold_left_app. simpl.
  rewrite String.eqb_refl. by apply fold_left_assoc_none.
Qed.

(** ** Strings

    stdpp makes [String.append] opaque to [simpl]; its two defining
    equations are rewrite rules of the [auth] database. *)

Lemma string_app_cons c s t : (String c s ++ t)%string = String c (s ++ t).
Proof. done. Qed.

Lemma string_app_nil_l t : (EmptyString ++ t)%string = t.
Proof. done. Qed.

Lemma string_app_empty_r s : (s ++ EmptyString)%string = s.
Proof. induction s as [|c s IH]; [done|]. by rewrite string_app_cons, IH. Qed.

#[export] Hint Rewrite string_app_cons string_app_nil_l string_app_empty_r : auth.
