(* ===== verification/Json.v ===== *)
(** * Json: the JavaScript values the client reads from responses

    [response.data] and [error.response.data] are the decoded JSON bodies
    axios hands to the client.  The client inspects them with three
    JavaScript operators, modelled here:
    - [response.data === true] (AppContext.jsx, [getAuthState]): strict
      equality with the boolean [true], no coercion ([strict_eq_true]);
    - [x?.message] (Login.jsx, [onSubmitHandler]): optional chaining, which
      yields [undefined] (here [None]) on [null], [undefined] and on values
      that are not objects ([get_field]);
    - [a || b] (Login.jsx): [a] when [a] is truthy, else [b] ([js_or], with
      [js_truthy] the ToBoolean conversion: [null], [false], [0], [""] and
      [undefined] are falsy).
    Numbers are integers here; NaN and fractions are not produced by the
    backend's bodies the client inspects. *)

From S2P Require Import Prelude.

#[warnings="-register-all"]
Inductive json : Type :=
| JNull
| JBool (b : bool)
| JNum (n : Z)
| JStr (s : string)
| JArr (xs : list json)
| JObj (fields : list (string * json)).

(** ToBoolean *)
Definition js_truthy (v : json) : bool :=
  match v with
  | JNull => false
  | JBool b => b
  | JNum n => negb (Z.eqb n 0)
  | JStr s => negb (String.eqb s "")
  | JArr _ | JObj _ => true
  end.

(** [v === true] *)
Definition strict_eq_true (v : json) : bool :=
  match v with JBool true => true | _ => false end.

(** [v?.k] on a decoded body; [None] is [undefined]. *)
Definition get_field (k : string) (v : json) : option json :=
  match v with
  | JObj fs => assoc_last k fs
  | _ => None
  end.

(** [a || b], with [a] possibly [undefined]. *)
Definition js_or (a : option json) (b : json) : json :=
  match a with
  | Some v => if js_truthy v then v else b
  | None => b
  end.

Lemma strict_eq_true_iff v : strict_eq_true v = true <-> v = JBool true.
Proof. destruct v as [|[]| | | |]; simpl; split; congruence. Qed.

Lemma js_or_truthy v b : js_truthy v = true -> js_or (Some v) b = v.
Proof. intros H. simpl. by rewrite H. Qed.

Lemma js_or_falsy a b :
  match a with Some v => js_truthy v = false | None => True end -> js_or a b = b.
Proof. destruct a as [v|]; simpl; [intros ->|]; done. Qed.

(** A non-empty string is truthy. *)
Lemma js_truthy_str s : s <> "" -> js_truthy (JStr s) = true.
Proof.
  intros H. simpl. destruct (String.eqb_spec s ""); [done|]. done.
Qed.

#[export] Hint Resolve js_or_truthy js_truthy_str : auth.
