(* ===== verification/Async.v ===== *)
(** * Async: the shape of an [async] handler of the client

    Every handler of the client ([getUserData], [getAuthState],
    [onSubmitHandler]) is an [async] arrow function whose only suspension
    points are [await axios...(...)] calls: every other statement is a
    synchronous state setter ([setIsLoggedIn], [setUserData],
    [setLoading]), a [toast] or a [navigate].  Such a function is a tree
    [prog]: [Op e k] performs the effect [e] then continues with [k];
    [Await q k] issues the request [q] and suspends until its reply [r]
    arrives, then continues with [k r]; [Done] is the settled promise.

    [await f()] of an inner [async] function [f] that itself suspends on
    the network is its sequential composition [pseq]: the event loop
    drains the microtasks of one reply before it delivers the next, so no
    other handler runs between the end of [f] and its caller's next
    statement.

    [trace p rs] runs [p] against the replies [rs] in order, returning the
    effects performed, the requests issued and, when [p] has settled, the
    replies it did not consume.  [bounded n p] says that [p] settles after
    at most [n] replies, whatever they are. *)

From S2P Require Import Prelude.

Section Programs.
Context {E Q R : Type}.

Inductive prog : Type :=
| Done : prog
| Op (e : E) (k : prog) : prog
| Await (q : Q) (k : R -> prog) : prog.

(** [await f(); rest] *)
Fixpoint pseq (p rest : prog) : prog :=
  match p with
  | Done => rest
  | Op e k => Op e (pseq k rest)
  | Await q k => Await q (fun r => pseq (k r) rest)
  end.

(** Run against a script of replies. *)
Fixpoint trace (p : prog) (rs : list R) : list E * list Q * option (list R) :=
  match p with
  | Done => ([], [], Some rs)
  | Op e k => let '(es, qs, o) := trace k rs in (e :: es, qs, o)
  | Await q k =>
      match rs with
      | [] => ([], [q], None)
      | r :: rs' => let '(es, qs, o) := trace (k r) rs' in (es, q :: qs, o)
      end
  end.

(** Settles after at most [n] replies. *)
Fixpoint bounded (n : nat) (p : prog) : Prop :=
  match p with
  | Done => True
  | Op _ k => bounded n k
  | Await _ k => match n with 0 => False | S n' => forall r, bounded n' (k r) end
  end.

(** Every effect [p] may perform satisfies [P]. *)
Fixpoint all_ops (P : E -> Prop) (p : prog) : Prop :=
  match p with
  | Done => True
  | Op e k => P e /\ all_ops P k
  | Await _ k => forall r, all_ops P (k r)
  end.

Context {S : Type} (apply : E -> S -> S).

Definition apply_all (es : list E) (s : S) : S := fold_left (fun s e => apply e s) es s.

(** The synchronous part of a handler: run the effects up to the
    next [await] (or to the end). *)
Fixpoint run (p : prog) (s : S) : S * option (Q * (R -> prog)) :=
  match p with
  | Done => (s, None)
  | Op e k => run k (apply e s)
  | Await q k => (s, Some (q, k))
  end.

End Programs.

Arguments prog : clear implicits.

(** [e ;; k]: the statement [e], then the rest of the handler. *)
Notation "e ;; k" := (Op e k) (at level 100, k at level 200, right associativity) : auth_scope.

(** Renaming the effects of a program: how [getUserData], written for
    the context's effects, runs inside the Login page's handler. *)
Fixpoint pmap {E E' Q R} (f : E -> E') (p : prog E Q R) : prog E' Q R :=
  match p with
  | Done => Done
  | Op e k => Op (f e) (pmap f k)
  | Await q k => Await q (fun r => pmap f (k r))
  end.

(** Renaming the requests of a program: how a handler written against
    one set of endpoints runs inside a handler that calls more. *)
Fixpoint qmap {E Q Q' R} (g : Q -> Q') (p : prog E Q R) : prog E Q' R :=
  match p with
  | Done => Done
  | Op e k => Op e (qmap g k)
  | Await q k => Await (g q) (fun r => qmap g (k r))
  end.

(** ** Lemmas *)

Section ProgramLemmas.
Context {E Q R : Type}.
Implicit Types p q : prog E Q R.

Lemma bounded_mono n m p : n <= m -> bounded n p -> bounded m p.
Proof.
  revert n m. induction p as [|e k IH|q k IH]; intros n m Hle Hb; simpl in *; auto.
  - by eapply IH.
  - destruct n as [|n]; [done|]. destruct m as [|m]; [lia|].
    intros r. eapply IH; [|apply Hb]. lia.
Qed.

Lemma bounded_pseq n m p q : bounded n p -> bounded m q -> bounded (n + m) (pseq p q).
Proof.
  revert n. induction p as [|e k IH|q' k IH]; intros n Hp Hq; simpl in *.
  - eapply bounded_mono; [|done]. lia.
  - by apply IH.
  - destruct n as [|n]; [done|]. intros r. by apply IH.
Qed.

(** Enough replies make a bounded program settle: this is the
    termination argument of every handler. *)
Lemma trace_settles n p rs :
  bounded n p -> n <= length rs ->
  exists es qs rest, trace p rs = (es, qs, Some rest) /\ length qs + length rest = length rs.
Proof.
  revert n rs. induction p as [|e k IH|q k IH]; intros n rs Hb Hlen; simpl in *.
  - by exists [], [], rs.
  - destruct (IH n rs Hb Hlen) as (es & qs & rest & -> & Hl). by exists (e :: es), qs, rest.
  - destruct n as [|n]; [done|]. destruct rs as [|r rs]; simpl in Hlen; [lia|].
    destruct (IH r n rs (Hb r) ltac:(lia)) as (es & qs & rest & -> & Hl).
    exists es, (q :: qs), rest. simpl. split; [done|lia].
Qed.

Lemma trace_pseq p q rs es qs rest :
  trace p rs = (es, qs, Some rest) ->
  trace (pseq p q) rs =
    let '(es', qs', o) := trace q rest in (es ++ es', qs ++ qs', o).
Proof.
  revert rs es qs. induction p as [|e k IH|q' k IH]; intros rs es qs H; simpl in *.
  - injection H as <- <- <-. by destruct (trace q _) as [[??]?].
  - destruct (trace k rs) as [[es0 qs0] o0] eqn:Ek. injection H as <- <- ->.
    rewrite (IH rs es0 qs0); [|by rewrite Ek]. by destruct (trace q _) as [[??]?].
  - destruct rs as [|r rs]; [done|].
    destruct (trace (k r) rs) as [[es0 qs0] o0] eqn:Ek. injection H as <- <- ->.
    rewrite (IH r rs es0 qs0); [|by rewrite Ek]. by destruct (trace q _) as [[??]?].
Qed.

Lemma trace_pseq_pending p q rs es qs :
  trace p rs = (es, qs, None) -> trace (pseq p q) rs = (es, qs, None).
Proof.
  revert rs es qs. induction p as [|e k IH|q' k IH]; intros rs es qs H; simpl in *; [done| |].
  - destruct (trace k rs) as [[es0 qs0] o0] eqn:Ek. injection H as <- <- ->.
    by rewrite (IH rs es0 qs0).
  - destruct rs as [|r rs]; [done|].
    destruct (trace (k r) rs) as [[es0 qs0] o0] eqn:Ek. injection H as <- <- ->.
    by rewrite (IH r rs es0 qs0).
Qed.

Lemma all_ops_trace P p rs : all_ops P p -> Forall P (trace p rs).1.1.
Proof.
  revert rs. induction p as [|e k IH|q k IH]; intros rs Hp; simpl in *.
  - constructor.
  - destruct Hp as [He Hk]. specialize (IH rs Hk).
    destruct (trace k rs) as [[es qs] o]. simpl in *. by constructor.
  - destruct rs as [|r rs]; [constructor|]. specialize (IH r rs (Hp r)).
    by destruct (trace (k r) rs) as [[es qs] o].
Qed.

Lemma all_ops_pseq P p q : all_ops P p -> all_ops P q -> all_ops P (pseq p q).
Proof.
  induction p as [|e k IH|q' k IH]; simpl; [done| |].
  - intros [He Hk] Hq. auto.
  - intros Hk Hq r. auto.
Qed.

Context {S : Type} (apply : E -> S -> S).

Lemma apply_all_app es1 es2 s :
  apply_all apply (es1 ++ es2) s = apply_all apply es2 (apply_all apply es1 s).
Proof. unfold apply_all. by rewrite fold_left_app. Qed.

(** A handler bounded by [n] that suspends leaves a rest bounded by
    [n - 1]; one bounded by [0] does not suspend. *)
Lemma run_bounded n p s :
  bounded n p ->
  match run apply p s with
  | (_, Some (_, k)) => exists n', n = Nat.succ n' /\ forall r, bounded n' (k r)
  | (_, None) => True
  end.
Proof.
  revert s. induction p as [|e k IH|q k IH]; intros s Hb; simpl in *; [done|by apply IH|].
  destruct n as [|n]; [done|]. by exists n.
Qed.

(** A property of the state that every effect preserves holds after
    the synchronous part of a handler. *)
Lemma run_preserves (P : S -> Prop) p s :
  (forall e s, P s -> P (apply e s)) -> P s -> P (run apply p s).1.
Proof. intros Hstep. revert s. induction p as [|e k IH|q k IH]; intros s Hs; simpl; auto. Qed.

End ProgramLemmas.

Lemma trace_pmap {E E' Q R} (f : E -> E') (p : prog E Q R) rs :
  trace (pmap f p) rs = let '(es, qs, o) := trace p rs in (map f es, qs, o).
Proof.
  revert rs. induction p as [|e k IH|q k IH]; intros rs; simpl; [done| |].
  - rewrite IH. by destruct (trace k rs) as [[??]?].
  - destruct rs as [|r rs]; [done|]. rewrite IH. by destruct (trace (k r) rs) as [[??]?].
Qed.

Lemma bounded_pmap {E E' Q R} (f : E -> E') (p : prog E Q R) n :
  bounded n p -> bounded n (pmap f p).
Proof.
  revert n. induction p as [|e k IH|q k IH]; intros n Hb; simpl in *; auto.
  destruct n; [done|]. intros r. by apply IH.
Qed.

Lemma all_ops_pmap {E E' Q R} (P : E' -> Prop) (f : E -> E') (p : prog E Q R) :
  (forall e, P (f e)) -> all_ops P (pmap f p).
Proof. intros Hf. induction p as [|e k IH|q k IH]; simpl; auto. Qed.

Lemma trace_qmap {E Q Q' R} (g : Q -> Q') (p : prog E Q R) rs :
  trace (qmap g p) rs = let '(es, qs, o) := trace p rs in (es, map g qs, o).
Proof.
  revert rs. induction p as [|e k IH|q k IH]; intros rs; simpl; [done| |].
  - rewrite IH. by destruct (trace k rs) as [[??]?].
  - destruct rs as [|r rs]; [done|]. rewrite IH. by destruct (trace (k r) rs) as [[??]?].
Qed.

Lemma bounded_qmap {E Q Q' R} (g : Q -> Q') (p : prog E Q R) n :
  bounded n p -> bounded n (qmap g p).
Proof.
  revert n. induction p as [|e k IH|q k IH]; intros n Hb; simpl in *; auto.
  destruct n; [done|]. intros r. by apply IH.
Qed.

Lemma all_ops_qmap {E Q Q' R} (P : E -> Prop) (g : Q -> Q') (p : prog E Q R) :
  all_ops P p -> all_ops P (qmap g p).
Proof. induction p as [|e k IH|q k IH]; simpl; [done|intros [He Hk]; auto|intros Hk r; auto]. Qed.

#[export] Hint Resolve bounded_pseq bounded_pmap all_ops_pseq all_ops_pmap bounded_qmap all_ops_qmap : auth.
