(* ===== verification/Gateway.v ===== *)
(** * Gateway: the backend calls the client issues through axios

    The client calls four endpoints of the identity backend, always with
    [{ withCredentials: true }] so that the browser attaches the session
    cookie: [GET /profile] and [GET /is-authenticated] (AppContext.jsx),
    [POST /register] with [{ name, email, password }] and [POST /login]
    with [{ email, password }] (Login.jsx).  [request] names the call,
    [to_http] is the HTTP request axios sends for it.

    What comes back is a [reply]: a network failure, or an HTTP status
    with its decoded body.  axios turns it into a settled promise
    ([axios_settle]): resolved with the [response] on a 2xx status
    (its default [validateStatus]), rejected with an [axios_error] whose
    [response] is present for an HTTP error and absent for a network
    error.  The client branches on exactly this.

    [from_http] is how the backend of the specification (section 6)
    reads a request: credentials, method, path under the base URL and
    the body's string fields.  [to_http_roundtrip] shows that nothing the
    client sends is lost or altered on the way. *)

From S2P Require Import Prelude Json.

Inductive request : Type :=
| GetProfile
| GetIsAuthenticated
| PostRegister (name email password : string)
| PostLogin (email password : string).

Record http_request : Type := {
  method : string;
  url : string;
  body : option json;
  withCredentials : bool
}.

Definition to_http (backendURL : string) (q : request) : http_request :=
  match q with
  | GetProfile =>
      {| method := "GET"; url := (backendURL ++ "/profile")%string;
         body := None; withCredentials := true |}
  | GetIsAuthenticated =>
      {| method := "GET"; url := (backendURL ++ "/is-authenticated")%string;
         body := None; withCredentials := true |}
  | PostRegister name email password =>
      {| method := "POST"; url := (backendURL ++ "/register")%string;
         body := Some (JObj [("name", JStr name); ("email", JStr email);
                             ("password", JStr password)]);
         withCredentials := true |}
  | PostLogin email password =>
      {| method := "POST"; url := (backendURL ++ "/login")%string;
         body := Some (JObj [("email", JStr email); ("password", JStr password)]);
         withCredentials := true |}
  end.

(** What the network delivers for a request. *)
Inductive reply : Type :=
| NetworkError
| HttpReply (status : Z) (data : json).

Record response : Type := { status : Z; data : json }.

(** [error.response] is [undefined] for a network error. *)
Record axios_error : Type := { err_response : option response }.

Inductive settled : Type :=
| Resolved (resp : response)
| Rejected (err : axios_error).

Definition axios_settle (r : reply) : settled :=
  match r with
  | NetworkError => Rejected {| err_response := None |}
  | HttpReply st d =>
      if is_2xx st then Resolved {| status := st; data := d |}
      else Rejected {| err_response := Some {| status := st; data := d |} |}
  end.

(** [error.response?.data?.message] *)
Definition error_message (e : axios_error) : option json :=
  match err_response e with
  | Some resp => get_field "message" (data resp)
  | None => None
  end.

(** ** The backend's reading of a request

    How the identity backend of the specification (section 6) reads what
    the client sends: a credentialed request, its method, its path under
    [backendURL], and the string fields of its JSON body. *)

Fixpoint strip_prefix (p s : string) : option string :=
  match p, s with
  | EmptyString, _ => Some s
  | String c p', String c' s' => if Ascii.eqb c c' then strip_prefix p' s' else None
  | _, _ => None
  end.

Definition field_str (k : string) (b : option json) : option string :=
  match b with
  | Some j => match get_field k j with Some (JStr v) => Some v | _ => None end
  | None => None
  end.

Definition from_http (backendURL : string) (h : http_request) : option request :=
  if negb (withCredentials h) then None else
  match strip_prefix backendURL (url h) with
  | None => None
  | Some path =>
      if String.eqb (method h) "GET" then
        if String.eqb path "/profile" then Some GetProfile
        else if String.eqb path "/is-authenticated" then Some GetIsAuthenticated
        else None
      else if String.eqb (method h) "POST" then
        if String.eqb path "/register" then
          match field_str "name" (body h), field_str "email" (body h), field_str "password" (body h) with
          | Some n, Some e, Some p => Some (PostRegister n e p)
          | _, _, _ => None
          end
        else if String.eqb path "/login" then
          match field_str "email" (body h), field_str "password" (body h) with
          | Some e, Some p => Some (PostLogin e p)
          | _, _ => None
          end
        else None
      else None
  end.

Lemma strip_prefix_app p s : strip_prefix p (p ++ s) = Some s.
Proof.
  induction p as [|c p IH]; [by destruct s|]. rewrite string_app_cons. simpl.
  by rewrite Ascii.eqb_refl.
Qed.

(** C32. Round trip of the requests: what [to_http] sends for any of the
    four calls, with any credentials and any backend URL, is read back by
    the backend of the specification as exactly that call: the request
    carries the session cookie, the method and path select the
    endpoint, and the body's fields are the form's name, e-mail and
    password, unaltered. *)
Theorem to_http_roundtrip backendURL q : from_http backendURL (to_http backendURL q) = Some q.
Proof. destruct q; unfold from_http; simpl; by rewrite strip_prefix_app. Qed.
