(* ===== verification/AppContext.v ===== *)
(** * AppContext: the session store and the bootstrap sequence

    Models [src/client/src/context/AppContext.jsx].  [AppContextProvider]
    keeps two pieces of React state, [isLoggedIn] ([useState(false)]) and
    [userData] ([useState(null)]); the toasts it raises through
    [react-toastify] are kept beside them, in the order they were shown.
    The provider's handlers are [getUserData] ([GET /profile]) and
    [getAuthState] ([GET /is-authenticated], then [getUserData]); its
    [useEffect(..., [])] runs [getAuthState] once, at mount: that is the
    bootstrap sequence of the specification.

    What the provider passes to [AppContext.Provider] is
    [provider_value]: the backend URL, the two values, their setters and
    [getUserData]; the Login page takes [setIsLoggedIn] and
    [getUserData] from it.

    [console.error] calls are logging only and are not modelled.

    Theorems: the outcome of the bootstrap for every reply of the two
    calls (the session is granted exactly on [200] with body [true];
    a failed profile fetch leaves [isLoggedIn = true] with no profile,
    where the specification asks for a logged-out session); the order of
    the two requests; that the bootstrap settles after two replies; and
    that a failed check leaves the store exactly as before the bootstrap,
    so that no reader can tell "not yet checked" from "checked and
    denied". *)

From S2P Require Import Prelude Json Async Gateway.
Local Open Scope auth_scope.

Inductive toast : Type :=
| ToastSuccess (msg : json)
| ToastError (msg : json).

Record ctx_state : Type := {
  isLoggedIn : bool;
  userData : json;
  toasts : list toast
}.

(** [useState(false)], [useState(null)] *)
Definition initial : ctx_state := {| isLoggedIn := false; userData := JNull; toasts := [] |}.

Inductive effect : Type :=
| SetIsLoggedIn (b : bool)
| SetUserData (v : json)
| Toast (t : toast).

Definition apply_effect (e : effect) (s : ctx_state) : ctx_state :=
  match e with
  | SetIsLoggedIn b => {| isLoggedIn := b; userData := userData s; toasts := toasts s |}
  | SetUserData v => {| isLoggedIn := isLoggedIn s; userData := v; toasts := toasts s |}
  | Toast t => {| isLoggedIn := isLoggedIn s; userData := userData s; toasts := toasts s ++ [t] |}
  end.

Abbreviation handler := (prog effect request reply).

Definition getUserData : handler :=
  Await GetProfile (fun r =>
    match axios_settle r with
    | Resolved response =>
        if Z.eqb (status response) 200 then (SetUserData (data response) ;; Done) else Done
    | Rejected error => Toast (ToastError (JStr "Unable to retrieve profile")) ;; Done
    end).

Definition getAuthState : handler :=
  Await GetIsAuthenticated (fun r =>
    match axios_settle r with
    | Resolved response =>
        if Z.eqb (status response) 200 && strict_eq_true (data response)
        then (SetIsLoggedIn true ;; pseq getUserData Done)
        else (SetIsLoggedIn false ;; Done)
    | Rejected error => SetIsLoggedIn false ;; Done
    end).

(** The store the UI reads once the bootstrap has consumed [rs]. *)
Definition bootstrap (rs : list reply) : ctx_state :=
  apply_all apply_effect (trace getAuthState rs).1.1 initial.

(** The effects of [getUserData] for the reply of [GET /profile]: the
    profile is replaced wholesale on [200], nothing happens on another
    2xx, a toast on a failure. *)
Definition profile_effects (r : reply) : list effect :=
  match axios_settle r with
  | Resolved response => if Z.eqb (status response) 200 then [SetUserData (data response)] else []
  | Rejected _ => [Toast (ToastError (JStr "Unable to retrieve profile"))]
  end.

(** What [<AppContext.Provider value={...}>] hands to its consumers:
    the backend URL, the store's two values read at this render, their
    setters and [getUserData].  A consumer calling a setter performs the
    corresponding [effect]. *)
Record context_value : Type := {
  cv_backendURL : string;
  cv_isLoggedIn : bool;
  cv_setIsLoggedIn : bool -> effect;
  cv_userData : json;
  cv_setUserData : json -> effect;
  cv_getUserData : handler
}.

Definition provider_value (backendURL : string) (s : ctx_state) : context_value :=
  {| cv_backendURL := backendURL; cv_isLoggedIn := isLoggedIn s; cv_setIsLoggedIn := SetIsLoggedIn;
     cv_userData := userData s; cv_setUserData := SetUserData; cv_getUserData := getUserData |}.

(** ** Helper lemmas *)

(** The test of [getAuthState] holds on exactly one reply. *)
Lemma auth_test_iff r :
  match axios_settle r with
  | Resolved response => Z.eqb (status response) 200 && strict_eq_true (data response)
  | Rejected _ => false
  end = true <-> r = HttpReply 200 (JBool true).
Proof.
  split.
  - destruct r as [|st d]; simpl; [done|]. destruct (is_2xx st); [|done]. simpl.
    rewrite andb_true_iff, Z.eqb_eq, strict_eq_true_iff. by intros [-> ->].
  - intros ->. reflexivity.
Qed.

Lemma getUserData_bounded : bounded 1 getUserData.
Proof. unfold getUserData. simpl. intros r. by repeat case_match. Qed.

Lemma getAuthState_bounded : bounded 2 getAuthState.
Proof.
  unfold getAuthState. simpl. intros r. destruct (axios_settle r) as [resp|]; [|done].
  case_match; [|done]. exact (bounded_pseq 1 0 getUserData Done getUserData_bounded I).
Qed.

#[export] Hint Resolve getUserData_bounded getAuthState_bounded : auth.

(** The reply of the check, when it is not the one that confirms the
    session, ends the bootstrap with [setIsLoggedIn(false)]. *)
Lemma getAuthState_denied r rs :
  r <> HttpReply 200 (JBool true) ->
  trace getAuthState (r :: rs) = ([SetIsLoggedIn false], [GetIsAuthenticated], Some rs).
Proof.
  intros Hr. simpl.
  destruct (axios_settle r) as [resp|] eqn:Es; [|done].
  destruct (_ && _) eqn:Et; [|done].
  exfalso. apply Hr, auth_test_iff. by rewrite Es.
Qed.

Lemma getAuthState_confirmed r rs :
  trace getAuthState (HttpReply 200 (JBool true) :: r :: rs) =
  let '(es, qs, o) := trace getUserData [r] in
  (SetIsLoggedIn true :: es, GetIsAuthenticated :: qs, option_map (fun _ => rs) o).
Proof.
  unfold getAuthState, getUserData. simpl.
  destruct (axios_settle r) as [[st d]|]; simpl; [destruct (Z.eqb st 200)|]; done.
Qed.

Lemma getUserData_trace r rs :
  trace getUserData (r :: rs) = (profile_effects r, [GetProfile], Some rs).
Proof.
  unfold getUserData, profile_effects. simpl.
  destruct (axios_settle r) as [[st d]|]; simpl; [destruct (Z.eqb st 200)|]; done.
Qed.

(** A profile reply other than [200] never sets [userData]. *)
Lemma profile_effects_failure r :
  (forall p, r <> HttpReply 200 p) ->
  profile_effects r = match axios_settle r with
                      | Resolved _ => []
                      | Rejected _ => [Toast (ToastError (JStr "Unable to retrieve profile"))]
                      end.
Proof.
  intros Hr. unfold profile_effects. destruct r as [|st d]; [done|]. simpl.
  destruct (is_2xx st); [|done]. simpl.
  destruct (Z.eqb_spec st 200) as [->|]; [|done]. by destruct (Hr d).
Qed.

(** Whether a reply is the one that confirms the session is decidable. *)
Lemma confirm_cases r : r = HttpReply 200 (JBool true) \/ r <> HttpReply 200 (JBool true).
Proof.
  destruct r as [|st d]; [by right|].
  destruct (Z.eq_dec st 200%Z) as [->|Hst]; [|right; congruence].
  destruct d as [|[]| | | |]; [right|left|right..]; congruence.
Qed.

(** ** Theorems *)

(** C1. Bootstrap, denied: when the check fails (network error, non-2xx
    status, or any body other than [true] with status 200), the bootstrap
    ends with [isLoggedIn = false], no profile and no toast, and issues no
    further request. *)
Theorem bootstrap_denied r rs :
  r <> HttpReply 200 (JBool true) ->
  bootstrap (r :: rs) = {| isLoggedIn := false; userData := JNull; toasts := [] |}
  /\ (trace getAuthState (r :: rs)).1.2 = [GetIsAuthenticated].
Proof. intros Hr. unfold bootstrap. by rewrite getAuthState_denied. Qed.

Lemma bootstrap_denied_witness :
  NetworkError <> HttpReply 200 (JBool true) /\
  bootstrap [NetworkError] = {| isLoggedIn := false; userData := JNull; toasts := [] |}
  /\ (trace getAuthState [NetworkError]).1.2 = [GetIsAuthenticated].
Proof.
  assert (H : NetworkError <> HttpReply 200 (JBool true)) by discriminate.
  split; [exact H|]. exact (bootstrap_denied NetworkError [] H).
Defined.

(** C2. Bootstrap, granted: a check answered [200 true] followed by a
    profile answered [200 p] ends with [isLoggedIn = true] and
    [userData = p], the profile exactly as the backend sent it. *)
Theorem bootstrap_granted p rs :
  bootstrap (HttpReply 200 (JBool true) :: HttpReply 200 p :: rs)
  = {| isLoggedIn := true; userData := p; toasts := [] |}.
Proof. unfold bootstrap. rewrite getAuthState_confirmed, getUserData_trace. reflexivity. Qed.

(** C3. Bootstrap, profile failure: when the check confirms the session
    but the profile reply is anything but [200], the bootstrap ends with
    [isLoggedIn = true] and [userData = null], with the toast
    "Unable to retrieve profile" when the fetch was rejected.  The
    specification (section 4.3, step 5) requires a logged-out session
    here instead. *)
Theorem bootstrap_profile_failure r rs :
  (forall p, r <> HttpReply 200 p) ->
  bootstrap (HttpReply 200 (JBool true) :: r :: rs)
  = {| isLoggedIn := true; userData := JNull;
       toasts := match axios_settle r with
                 | Resolved _ => []
                 | Rejected _ => [ToastError (JStr "Unable to retrieve profile")]
                 end |}.
Proof.
  intros Hr. unfold bootstrap. rewrite getAuthState_confirmed, getUserData_trace.
  rewrite (profile_effects_failure r Hr). by destruct (axios_settle r).
Qed.

Lemma bootstrap_profile_failure_witness :
  (forall p, NetworkError <> HttpReply 200 p) /\
  bootstrap [HttpReply 200 (JBool true); NetworkError]
  = {| isLoggedIn := true; userData := JNull;
       toasts := [ToastError (JStr "Unable to retrieve profile")] |}.
Proof.
  assert (H : forall p, NetworkError <> HttpReply 200 p) by discriminate.
  split; [exact H|]. exact (bootstrap_profile_failure NetworkError [] H).
Defined.

(** C14. Request order of the bootstrap: the check is always the first
    request, and the profile is requested (once, after it) only when the
    check was answered [200 true]; the two are never in flight together. *)
Theorem bootstrap_request_order rs :
  (trace getAuthState rs).1.2 = [GetIsAuthenticated]
  \/ (exists rs', rs = HttpReply 200 (JBool true) :: rs'
                  /\ (trace getAuthState rs).1.2 = [GetIsAuthenticated; GetProfile]).
Proof.
  destruct rs as [|r rs]; [by left|].
  destruct (confirm_cases r) as [->|Hb].
  - right. exists rs. split; [done|].
    destruct rs as [|r rs]; [done|].
    rewrite getAuthState_confirmed, getUserData_trace. done.
  - left. by rewrite getAuthState_denied.
Qed.

(** C23. The bootstrap terminates: given any two replies it has settled,
    whatever they are, having issued one request per reply consumed. *)
Theorem bootstrap_settles rs :
  2 <= length rs ->
  exists es qs rest, trace getAuthState rs = (es, qs, Some rest)
                     /\ length qs + length rest = length rs.
Proof. intros H. eapply trace_settles; [apply getAuthState_bounded|done]. Qed.

Lemma bootstrap_settles_witness :
  2 <= length [NetworkError; NetworkError] /\
  exists es qs rest, trace getAuthState [NetworkError; NetworkError] = (es, qs, Some rest)
                     /\ length qs + length rest = 2.
Proof. split; [simpl; lia|]. exact (bootstrap_settles [NetworkError; NetworkError] ltac:(simpl; lia)). Defined.

(** C15. The window between the two awaits of [getAuthState]: whatever
    the check's reply and whatever store the bootstrap starts from, if
    the bootstrap is still waiting after that reply, then the request in
    flight is the profile and the store already reads [isLoggedIn = true]
    while [userData] is still the old value (null at page load).  The
    specification (section 4.2) forbids a reader to observe an
    authenticated session without its profile. *)
Theorem bootstrap_window_authenticated_without_profile r s :
  (trace getAuthState [r]).2 = None ->
  (trace getAuthState [r]).1.2 = [GetIsAuthenticated; GetProfile]
  /\ isLoggedIn (apply_all apply_effect (trace getAuthState [r]).1.1 s) = true
  /\ userData (apply_all apply_effect (trace getAuthState [r]).1.1 s) = userData s.
Proof.
  destruct (confirm_cases r) as [->|Hr]; [done|].
  by rewrite (getAuthState_denied r [] Hr).
Qed.

Lemma bootstrap_window_authenticated_without_profile_witness :
  (trace getAuthState [HttpReply 200 (JBool true)]).2 = None
  /\ isLoggedIn (bootstrap [HttpReply 200 (JBool true)]) = true
  /\ userData (bootstrap [HttpReply 200 (JBool true)]) = JNull.
Proof.
  assert (H : (trace getAuthState [HttpReply 200 (JBool true)]).2 = None) by reflexivity.
  split; [exact H|].
  exact (proj2 (bootstrap_window_authenticated_without_profile _ initial H)).
Defined.

(** C22. [getUserData] never touches [isLoggedIn]; on a [200] reply it
    replaces [userData] by the body, whatever the body is; on any other
    reply it leaves [userData] as it was. *)
Theorem getUserData_spec s r :
  let s' := apply_all apply_effect (trace getUserData [r]).1.1 s in
  isLoggedIn s' = isLoggedIn s
  /\ userData s' = match r with
                   | HttpReply st d => if Z.eqb st 200 then d else userData s
                   | NetworkError => userData s
                   end.
Proof.
  rewrite getUserData_trace. unfold profile_effects. destruct r as [|st d]; [done|]. simpl.
  destruct (Z.eqb_spec st 200) as [->|Hne]; [done|].
  destruct (is_2xx st); simpl; [|done]. by destruct (Z.eqb_spec st 200).
Qed.

(** C18. No "initialized" signal: the store read before the bootstrap has
    any answer is identical to the store after a denied check, so a page
    gating on [isLoggedIn] cannot tell "unknown" from "denied"
    (the specification, section 3, requires an [initialized] flag). *)
Theorem bootstrap_unknown_is_denied r rs :
  r <> HttpReply 200 (JBool true) -> bootstrap [] = bootstrap (r :: rs).
Proof. intros Hr. unfold bootstrap. by rewrite getAuthState_denied. Qed.

Lemma bootstrap_unknown_is_denied_witness :
  HttpReply 401 (JObj []) <> HttpReply 200 (JBool true) /\
  bootstrap [] = bootstrap [HttpReply 401 (JObj [])].
Proof.
  assert (H : HttpReply 401 (JObj []) <> HttpReply 200 (JBool true)) by discriminate.
  split; [exact H|]. exact (bootstrap_unknown_is_denied _ [] H).
Defined.
