(* ===== verification/Email.v ===== *)
(** * Email: the browser's [type="email"] check on the Login form

    The e-mail input of [src/client/src/pages/Login.jsx] is rendered with
    [type="email"] and [required]: the browser fires [onSubmit] only when
    its value is a "valid e-mail address" of the HTML standard.  The page
    relies on this check and does no validation of its own.

    [valid_email] is the check as a program: split at the first ["@"]
    ([split_first]), test the local part character by character
    ([string_forallb]), split the domain at every ["."] ([split_on]) and
    test each label ([valid_label]).  [email_spec] is the standard's
    grammar written declaratively,
      [atext+ "@" label ("." label)*]
    where [atext] is [a-zA-Z0-9.!#$%&'*+/=?^_`{|}~-] and a label has 1 to
    63 letters, digits and hyphens and begins and ends with a letter or a
    digit.

    [sanitize_email] is the value sanitization of such an input: the
    value the page reads from it has no newlines and no surrounding
    whitespace.

    Lemmas: [split_on] and [String.concat] are inverse to each other
    (both round trips), [split_first] stops at the first separator, and
    [valid_email] decides exactly the grammar ([valid_email_iff], used by
    [Login] to state what the rendered form lets through). *)

From S2P Require Import Prelude.
From Stdlib Require Import Ascii.

Definition is_alnum (c : ascii) : bool :=
  let n := Ascii.nat_of_ascii c in
  (Nat.leb 48 n && Nat.leb n 57) || (Nat.leb 65 n && Nat.leb n 90) || (Nat.leb 97 n && Nat.leb n 122).

Definition is_atext (c : ascii) : bool :=
  is_alnum c || existsb (Ascii.eqb c) (String.list_ascii_of_string ".!#$%&'*+/=?^_`{|}~-").

Definition is_label_char (c : ascii) : bool := is_alnum c || Ascii.eqb c "-".

Fixpoint string_forallb (p : ascii -> bool) (s : string) : bool :=
  match s with
  | EmptyString => true
  | String c s' => p c && string_forallb p s'
  end.

Fixpoint last_char (s : string) : option ascii :=
  match s with
  | EmptyString => None
  | String c EmptyString => Some c
  | String _ s' => last_char s'
  end.

Definition valid_label (l : string) : bool :=
  match l with
  | EmptyString => false
  | String c _ =>
      Nat.leb (String.length l) 63 && string_forallb is_label_char l && is_alnum c
      && match last_char l with Some c' => is_alnum c' | None => false end
  end.

(** Split at every occurrence of [sep]. *)
Fixpoint split_on (sep : ascii) (s : string) : list string :=
  match s with
  | EmptyString => [EmptyString]
  | String c s' =>
      if Ascii.eqb c sep then EmptyString :: split_on sep s'
      else match split_on sep s' with
           | [] => [String c EmptyString]
           | w :: ws => String c w :: ws
           end
  end.

(** Split at the first [sep]: the part before it, and the rest if any. *)
Fixpoint split_first (sep : ascii) (s : string) : string * option string :=
  match s with
  | EmptyString => (EmptyString, None)
  | String c s' =>
      if Ascii.eqb c sep then (EmptyString, Some s')
      else let '(a, b) := split_first sep s' in (String c a, b)
  end.

Definition valid_email (s : string) : bool :=
  match split_first "@" s with
  | (local, Some domain) =>
      negb (String.eqb local "") && string_forallb is_atext local
      && forallb valid_label (split_on "." domain)
  | (_, None) => false
  end.

(** The value sanitization of an [type="email"] input: the browser
    strips newlines from the value, then leading and trailing ASCII
    whitespace (TAB, LF, FF, CR, SPACE); the input's [value], which
    [onChange] hands to [setEmail], is the sanitized one. *)
Definition sanitize_email (s : string) : string :=
  let is_nl c := Ascii.eqb c "010" || Ascii.eqb c "013" in
  let is_ws c := is_nl c || Ascii.eqb c "009" || Ascii.eqb c "012" || Ascii.eqb c " " in
  let fix drop_nl s :=
    match s with
    | EmptyString => EmptyString
    | String c s' => if is_nl c then drop_nl s' else String c (drop_nl s')
    end in
  let fix drop_ws s :=
    match s with
    | EmptyString => EmptyString
    | String c s' => if is_ws c then drop_ws s' else s
    end in
  String.rev (drop_ws (String.rev (drop_ws (drop_nl s)))).

(** ** The grammar of the HTML standard, declaratively *)

(** Every character of [s] satisfies [P]. *)
Fixpoint str_all (P : ascii -> Prop) (s : string) : Prop :=
  match s with
  | EmptyString => True
  | String c s' => P c /\ str_all P s'
  end.

(** [s] does not contain [sep]. *)
Definition no_char (sep : ascii) (s : string) : Prop := str_all (fun c => c <> sep) s.

(** A domain label: 1 to 63 letters, digits and hyphens, the first and
    the last a letter or a digit. *)
Definition label_spec (l : string) : Prop :=
  String.length l <= 63 /\ str_all (fun c => is_label_char c = true) l /\
  (exists c rest, l = String c rest /\ is_alnum c = true) /\
  (exists pre c, l = (pre ++ String c EmptyString)%string /\ is_alnum c = true).

(** [local "@" label ("." label)*]. *)
Definition email_spec (s : string) : Prop :=
  exists local labels,
    s = (local ++ String "@" (String.concat "." labels))%string /\
    local <> EmptyString /\ str_all (fun c => is_atext c = true) local /\
    labels <> [] /\ Forall label_spec labels.

(** ** Character strings *)

Lemma string_forallb_spec p s : string_forallb p s = true <-> str_all (fun c => p c = true) s.
Proof. induction s as [|c s IH]; simpl; [done|]. by rewrite andb_true_iff, IH. Qed.

Lemma str_all_app P a b : str_all P (a ++ b) <-> str_all P a /\ str_all P b.
Proof. induction a as [|c a IH]; [simpl; tauto|]. rewrite string_app_cons. simpl. rewrite IH. tauto. Qed.

Lemma str_all_impl (P Q : ascii -> Prop) s : (forall c, P c -> Q c) -> str_all P s -> str_all Q s.
Proof. intros HPQ. induction s; simpl; intuition. Qed.

Lemma last_char_snoc pre c : last_char (pre ++ String c EmptyString) = Some c.
Proof.
  induction pre as [|c' pre IH]; [done|]. rewrite string_app_cons. simpl.
  by destruct (pre ++ String c EmptyString)%string eqn:E; [destruct pre|].
Qed.

Lemma last_char_some l c : last_char l = Some c -> exists pre, l = (pre ++ String c EmptyString)%string.
Proof.
  induction l as [|c' l IH]; simpl; [done|].
  destruct l as [|c'' l']; [intros [= ->]; by exists EmptyString|].
  intros H. destruct (IH H) as [pre ->]. by exists (String c' pre).
Qed.

(** ** Splitting at the first separator *)

Lemma split_first_app sep s a b :
  split_first sep s = (a, Some b) -> s = (a ++ String sep b)%string /\ no_char sep a.
Proof.
  revert a. induction s as [|c s IH]; intros a; simpl; [done|].
  destruct (Ascii.eqb_spec c sep) as [->|Hc]; [by intros [= <- ->]|].
  destruct (split_first sep s) as [a' b'] eqn:E in |- *. intros [= <- ->].
  destruct (IH a' E) as [-> Ha]. done.
Qed.

Lemma split_first_none sep s a : split_first sep s = (a, None) -> s = a /\ no_char sep a.
Proof.
  revert a. induction s as [|c s IH]; intros a; simpl; [by intros [= <-]|].
  destruct (Ascii.eqb_spec c sep) as [->|Hc]; [done|].
  destruct (split_first sep s) as [a' b'] eqn:E in |- *. intros [= <- ->].
  destruct (IH a' E) as [-> Ha]. done.
Qed.

Lemma split_first_found sep a b : no_char sep a -> split_first sep (a ++ String sep b) = (a, Some b).
Proof.
  induction a as [|c a IH]; [simpl; by rewrite Ascii.eqb_refl|]. rewrite string_app_cons. simpl.
  intros [Hc Ha]. apply Ascii.eqb_neq in Hc. by rewrite Hc, IH.
Qed.

(** ** Splitting at every separator, and joining back *)

Lemma concat_cons sep x xs :
  xs <> [] -> String.concat sep (x :: xs) = (x ++ sep ++ String.concat sep xs)%string.
Proof. by destruct xs. Qed.

Lemma split_on_nonempty sep s : split_on sep s <> [].
Proof.
  induction s as [|c s IH]; simpl; [done|].
  destruct (Ascii.eqb c sep); [done|]. by destruct (split_on sep s).
Qed.

Lemma split_on_app sep a t :
  no_char sep a ->
  split_on sep (a ++ t) =
    match split_on sep t with [] => [a] | w :: ws => (a ++ w)%string :: ws end.
Proof.
  induction a as [|c a IH].
  { intros _. autorewrite with auth.
    pose proof (split_on_nonempty sep t). by destruct (split_on sep t). }
  rewrite string_app_cons. simpl.
  intros [Hc Ha]. apply Ascii.eqb_neq in Hc. rewrite Hc, IH by done.
  by destruct (split_on sep t).
Qed.

Lemma split_on_no_char sep s : Forall (no_char sep) (split_on sep s).
Proof.
  induction s as [|c s IH]; simpl; [by repeat constructor|].
  destruct (Ascii.eqb_spec c sep); [by constructor|].
  destruct (split_on sep s) as [|w ws]; [by repeat constructor|].
  invc IH. by constructor.
Qed.

(** Joining the pieces with the separator gives the string back. *)
Lemma concat_split_on sep s : String.concat (String sep EmptyString) (split_on sep s) = s.
Proof.
  induction s as [|c s IH]; simpl; [done|].
  pose proof (split_on_nonempty sep s) as Hne.
  destruct (Ascii.eqb_spec c sep) as [->|].
  - rewrite concat_cons by done. autorewrite with auth. by rewrite IH.
  - destruct (split_on sep s) as [|w [|w' ws]]; [done|simpl in *; by subst|].
    rewrite concat_cons in IH |- * by done. rewrite string_app_cons. by rewrite IH.
Qed.

(** Splitting a join of separator-free pieces gives the pieces back. *)
Lemma split_on_concat sep ls :
  ls <> [] -> Forall (no_char sep) ls ->
  split_on sep (String.concat (String sep EmptyString) ls) = ls.
Proof.
  induction ls as [|l ls IH]; intros Hne Hall; [done|]. invc Hall.
  destruct ls as [|l' ls].
  - simpl. rewrite <- (string_app_empty_r l) at 1. rewrite split_on_app by done.
    simpl. by rewrite string_app_empty_r.
  - rewrite concat_cons by done. rewrite split_on_app by done.
    rewrite string_app_cons, string_app_nil_l. cbn [split_on].
    rewrite Ascii.eqb_refl, IH by done. by rewrite string_app_empty_r.
Qed.

(** ** The check decides the grammar *)

Lemma atext_not_at c : is_atext c = true -> c <> "@"%char.
Proof. by intros H ->. Qed.

Lemma label_char_not_dot c : is_label_char c = true -> c <> "."%char.
Proof. by intros H ->. Qed.

Lemma label_spec_no_dot l : label_spec l -> no_char "." l.
Proof. intros (_ & Hall & _). exact (str_all_impl _ _ _ label_char_not_dot Hall). Qed.

Lemma valid_label_iff l : valid_label l = true <-> label_spec l.
Proof.
  unfold valid_label, label_spec. destruct l as [|c m].
  { split; [done|]. by intros (_ & _ & (? & ? & ? & _) & _). }
  rewrite !andb_true_iff, Nat.leb_le, string_forallb_spec. split.
  - intros (((Hlen & Hall) & Hc) & Hlast).
    destruct (last_char (String c m)) as [c'|] eqn:E; [|done].
    destruct (last_char_some _ _ E) as [pre Hpre]. eauto 10.
  - intros (Hlen & Hall & (c0 & rest & [= <- <-] & Hc) & (pre & c' & Hpre & Hc')).
    rewrite Hpre, last_char_snoc, <- Hpre. auto.
Qed.

(** The browser's e-mail check accepts a string exactly when it is a
    non-empty local part of [atext] characters, an ["@"], and one or more
    dot-separated labels of 1 to 63 letters, digits and hyphens that
    begin and end with a letter or a digit. *)
Lemma valid_email_iff s : valid_email s = true <-> email_spec s.
Proof.
  unfold valid_email, email_spec. split.
  - destruct (split_first "@" s) as [local [domain|]] eqn:E; [|done].
    destruct (split_first_app _ _ _ _ E) as [-> _].
    rewrite !andb_true_iff, negb_true_iff, String.eqb_neq, string_forallb_spec, forallb_forall.
    intros ((Hne & Hloc) & Hlab). exists local, (split_on "." domain).
    rewrite concat_split_on. split_and!; [done..|apply split_on_nonempty|].
    apply Forall_forall. intros l Hl. apply valid_label_iff, Hlab. by apply list_elem_of_In.
  - intros (local & labels & -> & Hne & Hloc & Hlabs & Hall).
    rewrite split_first_found by exact (str_all_impl _ _ _ atext_not_at Hloc).
    rewrite split_on_concat; [|done|by eapply Forall_impl, label_spec_no_dot].
    rewrite !andb_true_iff, negb_true_iff, String.eqb_neq, string_forallb_spec, forallb_forall.
    split_and!; [done..|]. intros l Hl. apply valid_label_iff.
    eapply Forall_forall; [exact Hall|by apply list_elem_of_In].
Qed.
