(* ===== verification/Login.v ===== *)
(** * Login: the dual-mode login / registration page

    Models [src/client/src/pages/Login.jsx].  The page keeps five pieces
    of React state ([form]): the mode [isCreateAccount], the three fields
    [name], [email], [password] and the [loading] flag that disables the
    submit button.  Its handler [onSubmitHandler] sets [loading], posts
    the credentials to [/register] or [/login], and on success fetches
    the profile through the context's [getUserData], sets [isLoggedIn],
    raises a success toast and navigates to ["/"]; a rejected post raises
    an error toast with the backend's message or ["Invalid credentials"];
    [finally] clears [loading].  The try/catch block is [submit_try], the
    whole handler [onSubmitHandler].

    [page] is the state one mounted Login page sees: the context's store,
    its own form and the router's location.  The browser lets the form be
    submitted only when the submit button is enabled ([disabled={loading}])
    and the fields pass HTML constraint validation ([required],
    [type="email"]): [can_submit].

    [render] is the JSX the page returns (links, heading, inputs, button,
    mode toggle), and [form_valid_view] the browser's constraint
    validation run over it.

    Theorems: the outcome of a submission for each kind of reply, the
    error message shown, the [finally] discipline on [loading], termination,
    what the validation of the rendered form accepts and the agreement of
    [form_valid] with it,
    and the behaviours the specification does not foresee (a 2xx status
    other than the expected one is ignored silently; a failed profile
    fetch after a successful login leaves the previous [userData]). *)

From S2P Require Import Prelude Json Async Gateway AppContext Email.
From Stdlib Require Import Ascii.
Local Open Scope auth_scope.

Record form : Type := {
  isCreateAccount : bool;
  name : string;
  email : string;
  password : string;
  loading : bool
}.

(** [useState(false)], [useState("")] x 3, [useState(false)] *)
Definition initial_form : form :=
  {| isCreateAccount := false; name := ""; email := ""; password := ""; loading := false |}.

Definition set_loading (b : bool) (f : form) : form :=
  {| isCreateAccount := isCreateAccount f; name := name f; email := email f;
     password := password f; loading := b |}.

(** Effects of the page's handler: the context's setters and toasts,
    [setLoading], and [navigate]. *)
Inductive leffect : Type :=
| Ctx (e : effect)
| SetLoading (b : bool)
| Navigate (path : string).

Abbreviation lhandler := (prog leffect request reply).

(** [try { ... } catch (error) { toast.error(...) }] *)
Definition submit_try (f : form) : lhandler :=
  if isCreateAccount f then
    Await (PostRegister (name f) (email f) (password f)) (fun r =>
      match axios_settle r with
      | Resolved response =>
          if Z.eqb (status response) 201 then
            pseq (pmap Ctx getUserData)
              (Ctx (SetIsLoggedIn true) ;;
               Ctx (Toast (ToastSuccess (JStr "Account created successfully."))) ;;
               Navigate "/" ;;
               Done)
          else Done
      | Rejected error =>
          Ctx (Toast (ToastError (js_or (error_message error) (JStr "Invalid credentials")))) ;; Done
      end)
  else
    Await (PostLogin (email f) (password f)) (fun r =>
      match axios_settle r with
      | Resolved response =>
          if Z.eqb (status response) 200 then
            Ctx (SetIsLoggedIn true) ;;
            pseq (pmap Ctx getUserData)
              (Ctx (Toast (ToastSuccess (JStr "Login successful"))) ;;
               Navigate "/" ;;
               Done)
          else Done
      | Rejected error =>
          Ctx (Toast (ToastError (js_or (error_message error) (JStr "Invalid credentials")))) ;; Done
      end).

(** [setLoading(true); try ... finally { setLoading(false) }] *)
Definition onSubmitHandler (f : form) : lhandler :=
  SetLoading true ;; pseq (submit_try f) (SetLoading false ;; Done).

(** ** Constraint validation of the form

    The browser fires [onSubmit] only when every rendered input passes
    constraint validation ([required] fails on the empty string,
    [type="email"] is the check [valid_email] of [Email]) and the submit
    button is enabled.  [form_valid] is that check written per field; the
    name input is rendered only in register mode. *)
Definition form_valid (f : form) : bool :=
  (if isCreateAccount f then negb (String.eqb (name f) "") else true)
  && negb (String.eqb (email f) "") && valid_email (email f)
  && negb (String.eqb (password f) "").

(** [disabled={loading}] on the submit button. *)
Definition can_submit (f : form) : bool := negb (loading f) && form_valid f.

(** [{loading ? "Loading..." : isCreateAccount ? "Sign Up" : "Login"}] *)
Definition button_label (f : form) : string :=
  if loading f then "Loading..." else if isCreateAccount f then "Sign Up" else "Login".

(** ** What the page renders

    The elements of the JSX tree that carry behaviour: links, the
    heading, the inputs with their [type], [placeholder], [required] and
    [value], the submit button, and the mode toggle, a [<span>] whose
    [onClick] sets [isCreateAccount] to [target].  Class names and
    styles are left out. *)
Inductive view_item : Type :=
| VLink (to text : string)
| VHeading (text : string)
| VInput (type placeholder : string) (required : bool) (value : string)
| VButton (disabled : bool) (text : string)
| VToggle (prompt label : string) (target : bool).

(** [{isCreateAccount ? "Sign Up" : "Login"}] in the [<h2>]. *)
Definition heading (f : form) : string := if isCreateAccount f then "Sign Up" else "Login".

(** The paragraph under the card. *)
Definition toggle_item (f : form) : view_item :=
  if isCreateAccount f then VToggle "Already have an account? " "Login" false
  else VToggle "Don't have an account? " "Sign Up" true.

Definition render (f : form) : list view_item :=
  [VLink "/" "Authify"; VHeading (heading f)]
  ++ (if isCreateAccount f then [VInput "text" "Enter full name" true (name f)] else [])
  ++ [VInput "email" "Enter email" true (email f);
      VInput "password" "***************" true (password f);
      VLink "/reset-password" "Forgot password?";
      VButton (loading f) (button_label f);
      toggle_item f].

(** The browser's constraint validation of one rendered element:
    [required] rejects the empty value, and a non-empty value of an
    [type="email"] input must be a valid e-mail address. *)
Definition constraint_ok (it : view_item) : bool :=
  match it with
  | VInput type _ required value =>
      negb (required && String.eqb value "")
      && (if String.eqb type "email" then String.eqb value "" || valid_email value else true)
  | _ => true
  end.

(** The form's validity as the browser computes it from the rendered
    inputs. *)
Definition form_valid_view (f : form) : bool := forallb constraint_ok (render f).

Record page : Type := {
  ctx : ctx_state;
  pform : form;
  location : string
}.

Definition apply_leffect (e : leffect) (p : page) : page :=
  match e with
  | Ctx e => {| ctx := apply_effect e (ctx p); pform := pform p; location := location p |}
  | SetLoading b => {| ctx := ctx p; pform := set_loading b (pform p); location := location p |}
  | Navigate path => {| ctx := ctx p; pform := pform p; location := path |}
  end.

(** The page after a submission of [f] has consumed [rs]. *)
Definition submit (f : form) (rs : list reply) (p : page) : page :=
  apply_all apply_leffect (trace (onSubmitHandler f) rs).1.1 p.

Definition not_loading (e : leffect) : Prop :=
  match e with SetLoading _ => False | _ => True end.

(** The credentials request of the current mode. *)
Definition credentials_request (f : form) : request :=
  if isCreateAccount f then PostRegister (name f) (email f) (password f)
  else PostLogin (email f) (password f).

(** A filled-in registration form, used by the examples below. *)
Definition register_form : form :=
  {| isCreateAccount := true; name := "Ann"; email := "a@b.c"; password := "pw"; loading := false |}.

(** ** Helper lemmas *)

(** Inside the [try] block nothing touches [loading]. *)
Lemma submit_try_no_loading f : all_ops not_loading (submit_try f).
Proof.
  unfold submit_try. destruct (isCreateAccount f); cbn -[pseq pmap]; intros r;
    destruct (axios_settle r); repeat case_match; cbn -[pseq pmap]; auto;
    repeat split; apply all_ops_pseq; try apply all_ops_pmap; simpl; auto.
Qed.

Lemma apply_all_no_loading es p :
  Forall not_loading es ->
  loading (pform (apply_all apply_leffect es p)) = loading (pform p).
Proof.
  revert p. induction es as [|e es IH]; intros p Hes; [done|].
  invc Hes. simpl. rewrite IH by done. by destruct e.
Qed.

Lemma submit_try_bounded f : bounded 2 (submit_try f).
Proof.
  unfold submit_try. destruct (isCreateAccount f); intros r;
    destruct (axios_settle r) as [resp|]; try exact I; destruct (Z.eqb _ _); try exact I.
  - refine (bounded_pseq 1 0 _ _ (bounded_pmap Ctx _ _ getUserData_bounded) _). exact I.
  - refine (bounded_pseq 1 0 _ _ (bounded_pmap Ctx _ _ getUserData_bounded) _). exact I.
Qed.

Lemma onSubmit_settled f rs es qs rest :
  trace (submit_try f) rs = (es, qs, Some rest) ->
  trace (onSubmitHandler f) rs = (SetLoading true :: es ++ [SetLoading false], qs, Some rest).
Proof.
  intros H. unfold onSubmitHandler. simpl. rewrite (trace_pseq _ _ _ _ _ _ H). simpl.
  by rewrite app_nil_r.
Qed.

Lemma onSubmit_pending f rs es qs :
  trace (submit_try f) rs = (es, qs, None) ->
  trace (onSubmitHandler f) rs = (SetLoading true :: es, qs, None).
Proof. intros H. unfold onSubmitHandler. simpl. by rewrite (trace_pseq_pending _ _ _ _ _ H). Qed.

#[export] Hint Resolve submit_try_no_loading submit_try_bounded : auth.

Lemma trace_profile_ctx r rs :
  trace (pmap Ctx getUserData) (r :: rs) = (map Ctx (profile_effects r), [GetProfile], Some rs).
Proof. by rewrite trace_pmap, getUserData_trace. Qed.

Lemma submit_try_login_ok f b r rs :
  isCreateAccount f = false ->
  trace (submit_try f) (HttpReply 200 b :: r :: rs) =
  (Ctx (SetIsLoggedIn true) :: map Ctx (profile_effects r)
     ++ [Ctx (Toast (ToastSuccess (JStr "Login successful"))); Navigate "/"],
   [PostLogin (email f) (password f); GetProfile], Some rs).
Proof.
  intros Hm. unfold submit_try. rewrite Hm. cbn -[pseq pmap getUserData].
  by rewrite (trace_pseq _ _ _ _ _ _ (trace_profile_ctx r rs)).
Qed.

Lemma submit_try_register_ok f b r rs :
  isCreateAccount f = true ->
  trace (submit_try f) (HttpReply 201 b :: r :: rs) =
  (map Ctx (profile_effects r)
     ++ [Ctx (SetIsLoggedIn true);
         Ctx (Toast (ToastSuccess (JStr "Account created successfully."))); Navigate "/"],
   [PostRegister (name f) (email f) (password f); GetProfile], Some rs).
Proof.
  intros Hm. unfold submit_try. rewrite Hm. cbn -[pseq pmap getUserData].
  by rewrite (trace_pseq _ _ _ _ _ _ (trace_profile_ctx r rs)).
Qed.

Lemma submit_try_rejected f r rs e :
  axios_settle r = Rejected e ->
  trace (submit_try f) (r :: rs) =
  ([Ctx (Toast (ToastError (js_or (error_message e) (JStr "Invalid credentials"))))],
   [credentials_request f], Some rs).
Proof.
  intros He. unfold submit_try, credentials_request.
  destruct (isCreateAccount f); simpl; by rewrite He.
Qed.

Lemma submit_try_ignored f st d rs :
  is_2xx st = true -> st <> (if isCreateAccount f then 201 else 200)%Z ->
  trace (submit_try f) (HttpReply st d :: rs) = ([], [credentials_request f], Some rs).
Proof.
  intros H2 Hst. unfold submit_try, credentials_request.
  destruct (isCreateAccount f); simpl; rewrite H2; simpl.
  - by destruct (Z.eqb_spec st 201).
  - by destruct (Z.eqb_spec st 200).
Qed.

Lemma onSubmitHandler_bounded f : bounded 2 (onSubmitHandler f).
Proof. refine (bounded_pseq 2 0 _ _ (submit_try_bounded f) _). exact I. Qed.


(** The toast list after a rejected post. *)
Lemma rejected_toasts f r rs e p :
  axios_settle r = Rejected e ->
  toasts (ctx (submit f (r :: rs) p))
  = toasts (ctx p) ++ [ToastError (js_or (error_message e) (JStr "Invalid credentials"))].
Proof. intros He. unfold submit. by rewrite (onSubmit_settled _ _ _ _ _ (submit_try_rejected f r rs e He)). Qed.

Lemma settle_http_error st d :
  is_2xx st = false ->
  axios_settle (HttpReply st d) = Rejected {| err_response := Some {| status := st; data := d |} |}.
Proof. intros H. simpl. by rewrite H. Qed.

(** ** Theorems *)

(** C4. Login success: in login mode, a [200] to [POST /login] followed
    by a [200 p] to [GET /profile] ends with [isLoggedIn = true],
    [userData = p], the toast "Login successful", the location ["/"] and
    [loading] cleared. *)
Theorem submit_login_success f b prof rs p :
  isCreateAccount f = false ->
  submit f (HttpReply 200 b :: HttpReply 200 prof :: rs) p =
  {| ctx := {| isLoggedIn := true; userData := prof;
               toasts := toasts (ctx p) ++ [ToastSuccess (JStr "Login successful")] |};
     pform := set_loading false (pform p); location := "/" |}.
Proof.
  intros Hm. unfold submit.
  by rewrite (onSubmit_settled _ _ _ _ _ (submit_try_login_ok f b _ rs Hm)).
Qed.

Lemma submit_login_success_witness :
  isCreateAccount initial_form = false /\
  submit initial_form [HttpReply 200 (JStr "ok"); HttpReply 200 (JObj [("email", JStr "a@b.c")])]
    {| ctx := initial; pform := initial_form; location := "/login" |}
  = {| ctx := {| isLoggedIn := true; userData := JObj [("email", JStr "a@b.c")];
                 toasts := [ToastSuccess (JStr "Login successful")] |};
       pform := initial_form; location := "/" |}.
Proof. split; [reflexivity|]. exact (submit_login_success initial_form _ _ [] _ eq_refl). Defined.

(** C5. Registration success: in register mode, a [201] to
    [POST /register] followed by a [200 p] to [GET /profile] ends with
    [isLoggedIn = true], [userData = p], the toast "Account created
    successfully.", the location ["/"] and [loading] cleared. *)
Theorem submit_register_success f b prof rs p :
  isCreateAccount f = true ->
  submit f (HttpReply 201 b :: HttpReply 200 prof :: rs) p =
  {| ctx := {| isLoggedIn := true; userData := prof;
               toasts := toasts (ctx p) ++ [ToastSuccess (JStr "Account created successfully.")] |};
     pform := set_loading false (pform p); location := "/" |}.
Proof.
  intros Hm. unfold submit.
  by rewrite (onSubmit_settled _ _ _ _ _ (submit_try_register_ok f b _ rs Hm)).
Qed.

Lemma submit_register_success_witness :
  isCreateAccount register_form = true /\
  submit register_form [HttpReply 201 JNull; HttpReply 200 (JStr "profile")]
    {| ctx := initial; pform := register_form; location := "/login" |}
  = {| ctx := {| isLoggedIn := true; userData := JStr "profile";
                 toasts := [ToastSuccess (JStr "Account created successfully.")] |};
       pform := register_form; location := "/" |}.
Proof. split; [reflexivity|]. exact (submit_register_success register_form _ _ [] _ eq_refl). Defined.

(** C6. Rejected submission: when the post is rejected (network error or
    non-2xx status), the session is left untouched, the location does not
    change, [loading] is cleared, and exactly one error toast is shown:
    [error.response?.data?.message] when it is truthy, otherwise
    "Invalid credentials". *)
Theorem submit_rejected f r rs e p :
  axios_settle r = Rejected e ->
  submit f (r :: rs) p =
  {| ctx := {| isLoggedIn := isLoggedIn (ctx p); userData := userData (ctx p);
               toasts := toasts (ctx p)
                         ++ [ToastError (js_or (error_message e) (JStr "Invalid credentials"))] |};
     pform := set_loading false (pform p); location := location p |}.
Proof.
  intros He. unfold submit.
  by rewrite (onSubmit_settled _ _ _ _ _ (submit_try_rejected f r rs e He)).
Qed.

(** The specification's example: registering an e-mail already in use. *)
Lemma submit_rejected_witness :
  axios_settle (HttpReply 409 (JObj [("message", JStr "Email already registered")])) = Rejected {| err_response := Some {| status := 409;
                     data := JObj [("message", JStr "Email already registered")] |} |} /\
  submit register_form [HttpReply 409 (JObj [("message", JStr "Email already registered")])]
    {| ctx := initial; pform := register_form; location := "/login" |}
  = {| ctx := {| isLoggedIn := false; userData := JNull;
                 toasts := [ToastError (JStr "Email already registered")] |};
       pform := register_form; location := "/login" |}.
Proof. split; [reflexivity|]. exact (submit_rejected register_form (HttpReply 409 (JObj [("message", JStr "Email already registered")])) [] _ _ eq_refl). Defined.

(** C21. A 2xx status other than the one the handler expects ([200] for
    login, [201] for registration; e.g. a registration answered [200]) is
    neither a success nor a failure: the handler only clears [loading];
    no toast, no navigation, no change of the session. *)
Theorem submit_unexpected_2xx f st d rs p :
  is_2xx st = true -> st <> (if isCreateAccount f then 201 else 200)%Z ->
  submit f (HttpReply st d :: rs) p =
  {| ctx := ctx p; pform := set_loading false (pform p); location := location p |}.
Proof.
  intros H2 Hst. unfold submit.
  rewrite (onSubmit_settled _ _ _ _ _ (submit_try_ignored f st d rs H2 Hst)).
  by destruct p as [[] ? ?].
Qed.

Lemma submit_unexpected_2xx_witness :
  is_2xx 200 = true /\ (200 <> if isCreateAccount register_form then 201 else 200)%Z /\
  submit register_form [HttpReply 200 JNull]
    {| ctx := initial; pform := register_form; location := "/login" |}
  = {| ctx := initial; pform := register_form; location := "/login" |}.
Proof.
  assert (H2 : is_2xx 200 = true) by reflexivity.
  assert (Hst : (200 <> if isCreateAccount register_form then 201 else 200)%Z) by (simpl; lia).
  split; [exact H2|]. split; [exact Hst|].
  exact (submit_unexpected_2xx register_form 200 JNull [] _ H2 Hst).
Defined.

(** C16. Login whose profile fetch fails: the session is marked logged in,
    the page navigates to ["/"] with the toast "Login successful", but
    [userData] keeps whatever it held before, which after an earlier
    session is the previous user's profile.  The specification requires a
    populated profile of the user who logged in. *)
Theorem submit_login_profile_failure f b r rs p :
  isCreateAccount f = false -> (forall prof, r <> HttpReply 200 prof) ->
  let p' := submit f (HttpReply 200 b :: r :: rs) p in
  isLoggedIn (ctx p') = true /\ userData (ctx p') = userData (ctx p)
  /\ location p' = "/" /\ loading (pform p') = false.
Proof.
  intros Hm Hr. unfold submit.
  rewrite (onSubmit_settled _ _ _ _ _ (submit_try_login_ok f b _ rs Hm)).
  rewrite (profile_effects_failure r Hr). by destruct (axios_settle r).
Qed.

Lemma submit_login_profile_failure_witness :
  isCreateAccount initial_form = false /\ (forall prof, NetworkError <> HttpReply 200 prof) /\
  let p' := submit initial_form [HttpReply 200 JNull; NetworkError]
              {| ctx := {| isLoggedIn := false; userData := JStr "previous user";
                           toasts := [] |};
                 pform := initial_form; location := "/login" |} in
  isLoggedIn (ctx p') = true /\ userData (ctx p') = JStr "previous user"
  /\ location p' = "/" /\ loading (pform p') = false.
Proof.
  assert (Hr : forall prof, NetworkError <> HttpReply 200 prof) by discriminate.
  split; [reflexivity|]. split; [exact Hr|].
  exact (submit_login_profile_failure initial_form JNull NetworkError [] _ eq_refl Hr).
Defined.

(** C8. The [finally] discipline: after a submission has settled,
    [loading] is [false]; while it waits for a reply, [loading] is [true],
    so the submit button stays disabled. *)
Theorem submit_finally f rs p :
  match (trace (onSubmitHandler f) rs).2 with
  | Some _ => loading (pform (submit f rs p)) = false
  | None => loading (pform (submit f rs p)) = true
  end.
Proof.
  unfold submit.
  destruct (trace (submit_try f) rs) as [[es qs] [rest|]] eqn:E.
  - rewrite (onSubmit_settled _ _ _ _ _ E). simpl. by rewrite apply_all_app.
  - rewrite (onSubmit_pending _ _ _ _ E). simpl.
    pose proof (all_ops_trace _ _ rs (submit_try_no_loading f)) as H.
    rewrite E in H. by rewrite apply_all_no_loading.
Qed.

(** C24. Every submission terminates: two replies suffice for the
    handler to settle, whatever they are. *)
Theorem submit_settles f rs :
  2 <= length rs -> exists rest, (trace (onSubmitHandler f) rs).2 = Some rest.
Proof.
  intros H. destruct (trace_settles _ _ rs (onSubmitHandler_bounded f) H)
    as (es & qs & rest & -> & _). by exists rest.
Qed.

Lemma submit_settles_witness :
  2 <= length [NetworkError; NetworkError] /\
  exists rest, (trace (onSubmitHandler register_form) [NetworkError; NetworkError]).2 = Some rest.
Proof.
  split; [simpl; lia|]. exact (submit_settles register_form [NetworkError; NetworkError] ltac:(simpl; lia)).
Defined.

(** C25. What the browser lets through: a form can be submitted only when
    no submission is in flight, the password is non-empty, the name is
    non-empty in register mode, and the e-mail is [local@domain] with both
    parts non-empty. *)
Theorem can_submit_fields f :
  can_submit f = true ->
  loading f = false /\ password f <> "" /\ (isCreateAccount f = true -> name f <> "")
  /\ exists local domain, email f = (local ++ "@" ++ domain)%string
                          /\ local <> "" /\ domain <> "".
Proof.
  unfold can_submit, form_valid, valid_email.
  rewrite !andb_true_iff, !negb_true_iff.
  intros (Hl & ((Hn & He) & Hv) & Hp).
  split; [done|]. split; [by apply String.eqb_neq|].
  split; [intros Hc; rewrite Hc, negb_true_iff in Hn; by apply String.eqb_neq|].
  destruct (split_first "@" (email f)) as [local [domain|]] eqn:E; [|done].
  rewrite !andb_true_iff, negb_true_iff in Hv. destruct Hv as [[Hloc _] Hdom].
  exists local, domain. split; [by apply split_first_app|].
  split; [by apply String.eqb_neq|]. by intros ->.
Qed.

Lemma can_submit_fields_witness :
  can_submit {| isCreateAccount := false; name := ""; email := "a@b.c"; password := "pw";
                loading := false |} = true /\
  exists local domain, "a@b.c"%string = (local ++ "@" ++ domain)%string
                       /\ local <> "" /\ domain <> "".
Proof.
  assert (H : can_submit {| isCreateAccount := false; name := ""; email := "a@b.c";
                            password := "pw"; loading := false |} = true) by reflexivity.
  split; [exact H|]. exact (proj2 (proj2 (proj2 (can_submit_fields _ H)))).
Defined.

(** C27. Equivalence with the browser's validation of the rendered
    form: the per-field check [form_valid] agrees, in both modes, with
    constraint validation ([required], [type="email"]) run over the
    inputs the page actually renders, the name input only in register
    mode. *)
Theorem form_valid_view_eq f : form_valid f = form_valid_view f.
Proof.
  unfold form_valid, form_valid_view, render, toggle_item.
  destruct (isCreateAccount f); cbn;
    destruct (String.eqb (name f) ""), (String.eqb (email f) ""), (valid_email (email f)),
      (String.eqb (password f) ""); reflexivity.
Qed.

(** C26. What the rendered form lets through: the browser's constraint
    validation of the inputs the page renders (in either mode) succeeds
    exactly when the e-mail is an address of the HTML grammar
    ([local "@" label ("." label)*]: the input is [type="email"] and
    [required]), the password is non-empty, and, in register mode, the
    name is non-empty. *)
Theorem rendered_form_accepts f :
  form_valid_view f = true <->
  email_spec (email f) /\ password f <> "" /\ (isCreateAccount f = true -> name f <> "").
Proof.
  unfold form_valid_view, render, toggle_item. rewrite <- valid_email_iff.
  destruct (String.eqb (email f) "") eqn:He; [apply String.eqb_eq in He; rewrite He|];
    destruct (isCreateAccount f); cbn; rewrite ?He;
    destruct (String.eqb_spec (name f) ""), (valid_email (email f)),
      (String.eqb_spec (password f) ""); cbn; naive_solver.
Qed.

(** C19. The backend's message is what the user reads: when the post is
    answered with a non-2xx status and a JSON body whose last ["message"]
    field is a non-empty string [m], the one toast raised is [m]. *)
Theorem rejected_shows_backend_message f st pre post m rs p :
  is_2xx st = false -> m <> "" ->
  Forall (fun kv => String.eqb "message" kv.1 = false) post ->
  toasts (ctx (submit f (HttpReply st (JObj (pre ++ ("message", JStr m) :: post)) :: rs) p))
  = toasts (ctx p) ++ [ToastError (JStr m)].
Proof.
  intros Hst Hm Hpost. rewrite (rejected_toasts _ _ _ _ _ (settle_http_error _ _ Hst)).
  unfold error_message. simpl. rewrite assoc_last_hit by done.
  rewrite js_or_truthy; auto with auth.
Qed.

Lemma rejected_shows_backend_message_witness :
  is_2xx 409 = false /\ "Email already registered"%string <> "" /\
  Forall (fun kv : string * json => String.eqb "message" kv.1 = false) [] /\
  toasts (ctx (submit register_form
                 [HttpReply 409 (JObj ([] ++ [("message", JStr "Email already registered")]))]
                 {| ctx := initial; pform := register_form; location := "/login" |}))
  = [ToastError (JStr "Email already registered")].
Proof.
  assert (H1 : is_2xx 409 = false) by reflexivity.
  assert (H2 : "Email already registered"%string <> "") by discriminate.
  assert (H3 : Forall (fun kv : string * json => String.eqb "message" kv.1 = false) []) by constructor.
  split; [exact H1|]. split; [exact H2|]. split; [exact H3|].
  exact (rejected_shows_backend_message register_form 409 [] [] _ []
           {| ctx := initial; pform := register_form; location := "/login" |} H1 H2 H3).
Defined.

(** C20. The fallback text: when the rejection carries no truthy
    ["message"] (a network error, a body without the field, or an empty
    string, [false], [0] or [null] there), the one toast raised is
    "Invalid credentials". *)
Theorem rejected_fallback_message f r rs e p :
  axios_settle r = Rejected e ->
  match error_message e with Some v => js_truthy v = false | None => True end ->
  toasts (ctx (submit f (r :: rs) p))
  = toasts (ctx p) ++ [ToastError (JStr "Invalid credentials")].
Proof. intros He Hm. rewrite (rejected_toasts _ _ _ _ _ He). by rewrite js_or_falsy. Qed.

Lemma rejected_fallback_message_witness :
  axios_settle (HttpReply 400 (JObj [("message", JStr "")]))
  = Rejected {| err_response := Some {| status := 400; data := JObj [("message", JStr "")] |} |}
  /\ js_truthy (JStr "") = false
  /\ toasts (ctx (submit initial_form [HttpReply 400 (JObj [("message", JStr "")])]
                    {| ctx := initial; pform := initial_form; location := "/login" |}))
     = [ToastError (JStr "Invalid credentials")].
Proof.
  assert (H1 : axios_settle (HttpReply 400 (JObj [("message", JStr "")]))
               = Rejected {| err_response := Some {| status := 400;
                                                     data := JObj [("message", JStr "")] |} |})
    by reflexivity.
  assert (H2 : js_truthy (JStr "") = false) by reflexivity.
  split; [exact H1|]. split; [exact H2|].
  exact (rejected_fallback_message initial_form _ [] _ _ H1 H2).
Defined.
