(* ===== verification/Flows.v ===== *)
(** * Flows: the e-mail verification orchestrator

    [App.jsx] routes ["/email-verify"] to [EmailVerify], but the page is
    not among the repository's sources.  It is modelled from the
    specification (sections 4.4, 6 and 7), in the style of the Login
    page that is in the sources.  The orchestrator is a short state
    machine [Idle -> Submitting -> (Success | Failed)].  An operation
    sets [Submitting], awaits its backend call and then leaves
    [Submitting]: it succeeds, or it fails with one notification
    carrying the backend's message or a generic fallback and returns to
    [Idle].  Its two operations are: (a) ask for a code, allowed only for
    a signed-in, unverified user; (b) submit the code.  On success the
    profile is fetched again through the context's [getUserData].

    The machine ([Section Orchestrator]) is generic in the page's
    operations ([handler_of]) and their guards ([allowed]).  A state
    [ostate] holds the store, the orchestrator's [flow], the location
    and the request in flight.  Its events are an invocation and the
    reply to the pending request.  The invariant that makes the submit
    lock sound ([olock]) is proved once, under the hypothesis that every
    operation has the shape above ([well_shaped]), and is then
    discharged for the page ([verify_shaped]).  The store is also read
    and changed by the other handlers of the tab; that interleaving
    belongs to [App] and is not repeated here. *)

From S2P Require Import Prelude Json Async Gateway AppContext.
Local Open Scope auth_scope.

(** The calls of the two protocols (specification, section 6).  The
    specification names the operations, not their paths. *)
Inductive flow_request : Type :=
| RequestEmailVerification
| SubmitEmailVerification (code : string).

(** An orchestrator awaits either a call the client already has
    ([GET /profile] in [getUserData]) or a call of its protocol. *)
Inductive call : Type :=
| Api (q : request)
| Flow (q : flow_request).

Inductive phase : Type := Idle | Submitting | Success | Failed.

#[export] Instance phase_eq_dec : EqDecision phase.
Proof. solve_decision. Defined.

(** The orchestrator's own state: its phase, and whether a challenge
    code is outstanding (the transient VerificationChallenge). *)
Record flow : Type := { fphase : phase; challenge : bool }.

Inductive feffect : Type :=
| FCtx (e : effect)
| SetPhase (p : phase)
| SetChallenge (b : bool)
| FNavigate (path : string).

Abbreviation fhandler := (prog feffect call reply).

(** A failure: [Failed], one notification carrying the backend's message
    or the generic fallback of section 7 (the specification leaves its
    text open), back to [Idle] for a retry. *)
Definition fail_with (e : axios_error) : fhandler :=
  SetPhase Failed ;;
  FCtx (Toast (ToastError (js_or (error_message e) (JStr "Request failed")))) ;;
  SetPhase Idle ;; Done.

(** The context's [getUserData], run inside an orchestrator. *)
Definition refetch_profile : fhandler := pmap FCtx (qmap Api getUserData).

Module EmailVerify.
Inductive verify_op : Type := SendCode | SubmitCode (code : string).

Definition verify_handler (o : verify_op) : fhandler :=
  match o with
  | SendCode =>
      SetPhase Submitting ;;
      Await (Flow RequestEmailVerification) (fun r =>
        match axios_settle r with
        | Resolved _ => SetChallenge true ;; SetPhase Idle ;; Done
        | Rejected e => fail_with e
        end)
  | SubmitCode code =>
      SetPhase Submitting ;;
      Await (Flow (SubmitEmailVerification code)) (fun r =>
        match axios_settle r with
        | Resolved _ =>
            pseq refetch_profile
              (SetChallenge false ;; SetPhase Success ;; FNavigate "/" ;; Done)
        | Rejected e => fail_with e
        end)
  end.

(** [currentUser.isAccountVerified] *)
Definition is_verified (s : ctx_state) : bool :=
  match get_field "isAccountVerified" (userData s) with Some (JBool true) => true | _ => false end.

(** A code may be requested by a signed-in, unverified user, and
    submitted once one was sent. *)
Definition verify_allowed (s : ctx_state) (fl : flow) (o : verify_op) : bool :=
  match o with
  | SendCode => isLoggedIn s && negb (is_verified s)
  | SubmitCode _ => isLoggedIn s && challenge fl
  end.
End EmailVerify.

(** ** The machine of one mounted orchestrator page *)

Record ostate : Type := {
  ostore : ctx_state;
  oflow : flow;
  oloc : string;
  pending : option (call * (reply -> fhandler))
}.

Definition with_pending (pd : option (call * (reply -> fhandler))) (st : ostate) : ostate :=
  {| ostore := ostore st; oflow := oflow st; oloc := oloc st; pending := pd |}.

Definition apply_feffect (e : feffect) (st : ostate) : ostate :=
  match e with
  | FCtx e' => {| ostore := apply_effect e' (ostore st); oflow := oflow st; oloc := oloc st;
                  pending := pending st |}
  | SetPhase ph => {| ostore := ostore st; oflow := {| fphase := ph; challenge := challenge (oflow st) |};
                      oloc := oloc st; pending := pending st |}
  | SetChallenge b => {| ostore := ostore st; oflow := {| fphase := fphase (oflow st); challenge := b |};
                         oloc := oloc st; pending := pending st |}
  | FNavigate path => {| ostore := ostore st; oflow := oflow st; oloc := path; pending := pending st |}
  end.

(** Run a handler up to its next [await]; the request it awaits becomes
    the pending one. *)
Definition ostart (p : fhandler) (st : ostate) : ostate :=
  match run apply_feffect p st with
  | (st', Some qk) => with_pending (Some qk) st'
  | (st', None) => st'
  end.

Inductive oevent (Op : Type) : Type :=
| Invoke (o : Op)
| Answer (r : reply).
Arguments Invoke {Op} o.
Arguments Answer {Op} r.

(** The page mounted on a store [s] at [loc]. *)
Definition oinit (s : ctx_state) (loc : string) : ostate :=
  {| ostore := s; oflow := {| fphase := Idle; challenge := false |}; oloc := loc; pending := None |}.

Section Orchestrator.
Context {Op : Type} (handler_of : Op -> fhandler) (allowed : ctx_state -> flow -> Op -> bool).

(** One event: an operation invoked by the user, accepted when its
    guard holds and no operation is [Submitting] (the submit lock), or
    the reply to the pending request. *)
Definition oexec (ev : oevent Op) (st : ostate) : option ostate :=
  match ev with
  | Invoke o =>
      if allowed (ostore st) (oflow st) o && bool_decide (fphase (oflow st) <> Submitting)
      then Some (ostart (handler_of o) st) else None
  | Answer r =>
      match pending st with
      | Some (_, k) => Some (ostart (k r) (with_pending None st))
      | None => None
      end
  end.

Fixpoint oexec_all (evs : list (oevent Op)) (st : ostate) : option ostate :=
  match evs with
  | [] => Some st
  | ev :: evs' => match oexec ev st with Some st' => oexec_all evs' st' | None => None end
  end.

Inductive ostep : ostate -> ostate -> Prop :=
| ostep_exec ev st st' : oexec ev st = Some st' -> ostep st st'.

Definition oreachable (s0 : ctx_state) (loc : string) (st : ostate) : Prop :=
  rtc ostep (oinit s0 loc) st.

End Orchestrator.

(** ** The shape that makes the submit lock sound *)

(** No request and no [SetPhase Submitting] any more. *)
Fixpoint calm (p : fhandler) : Prop :=
  match p with
  | Done => True
  | Op (SetPhase Submitting) _ => False
  | Op _ k => calm k
  | Await _ _ => False
  end.

(** The rest of an operation after a reply: it may await further, then
    leaves [Submitting] and stays calm. *)
Fixpoint exits (p : fhandler) : Prop :=
  match p with
  | Done => False
  | Op (SetPhase ph) k => ph <> Submitting /\ calm k
  | Op _ k => exits k
  | Await _ k => forall r, exits (k r)
  end.

(** [setPhase(Submitting); await call(...); ...] *)
Definition well_shaped (p : fhandler) : Prop :=
  exists q k, p = (SetPhase Submitting ;; Await q k) /\ forall r, exits (k r).

(** An operation is in flight exactly while [Submitting]. *)
Definition olock (st : ostate) : Prop :=
  match pending st with
  | Some (_, k) => fphase (oflow st) = Submitting /\ forall r, exits (k r)
  | None => fphase (oflow st) <> Submitting
  end.

Definition is_fctx (e : feffect) : Prop := match e with FCtx _ => True | _ => False end.

(** A signed-in, unverified user. *)
Definition unverified_user : ctx_state :=
  {| isLoggedIn := true; userData := JObj [("isAccountVerified", JBool false)]; toasts := [] |}.

(** ** Lemmas on the machine *)

Lemma run_calm p st :
  calm p -> fphase (oflow st) <> Submitting -> pending st = None -> olock (ostart p st).
Proof.
  unfold ostart. revert st.
  induction p as [|e k IH|q k IH]; intros st Hc Hph Hpd; simpl in *; [unfold olock; by rewrite Hpd| |done].
  destruct e as [e|ph|b|path]; apply IH; try done; destruct ph; done.
Qed.

Lemma run_exits p st :
  exits p -> fphase (oflow st) = Submitting -> pending st = None -> olock (ostart p st).
Proof.
  unfold ostart. revert st.
  induction p as [|e k IH|q k IH]; intros st Hx Hph Hpd; simpl in *; [done| |by split].
  destruct e as [e|ph|b|path]; try by apply IH.
  destruct Hx as [Hne Hc]. by apply run_calm.
Qed.

Lemma start_well_shaped p st : well_shaped p -> olock (ostart p st).
Proof. intros (q & k & -> & Hk). by split. Qed.

Lemma fail_with_exits e : exits (fail_with e).
Proof. done. Qed.

Lemma exits_pseq_ctx p k : all_ops is_fctx p -> exits k -> exits (pseq p k).
Proof.
  intros Hp Hk. induction p as [|e p IH|q p IH]; simpl in *; [done| |by intros r; apply IH].
  destruct Hp as [He Hp]. destruct e; [by apply IH|done..].
Qed.

Lemma refetch_profile_ctx : all_ops is_fctx refetch_profile.
Proof. apply all_ops_pmap. done. Qed.

Section OrchestratorLemmas.
Context {Op : Type} (handler_of : Op -> fhandler) (allowed : ctx_state -> flow -> Op -> bool).

Lemma oexec_all_rtc evs st st' :
  oexec_all handler_of allowed evs st = Some st' -> rtc (ostep handler_of allowed) st st'.
Proof.
  revert st. induction evs as [|ev evs IH]; intros st; simpl; [by intros [= ->]|].
  destruct (oexec _ _ ev st) as [st1|] eqn:E; [|done]. intros H.
  eapply rtc_l; [by econstructor|by apply IH].
Qed.

Lemma oreachable_invariant (P : ostate -> Prop) s0 loc :
  P (oinit s0 loc) ->
  (forall ev st st', P st -> oexec handler_of allowed ev st = Some st' -> P st') ->
  forall st, oreachable handler_of allowed s0 loc st -> P st.
Proof.
  intros Hi Hs st Hr. revert st Hr. unfold oreachable.
  apply rtc_ind_r; [done|]. intros st1 st2 _ Hst IH. invc Hst. by eapply Hs.
Qed.

Hypothesis shaped : forall o, well_shaped (handler_of o).

Lemma oexec_lock ev st st' : olock st -> oexec handler_of allowed ev st = Some st' -> olock st'.
Proof.
  intros Hl. destruct ev as [o|r]; simpl.
  - case_match; [|done]. intros [= <-]. by apply start_well_shaped.
  - unfold olock in Hl. destruct (pending st) as [[q k]|] eqn:Hpd; [|done]. intros [= <-].
    destruct Hl as [Hph Hk]. by apply run_exits.
Qed.

Lemma oreachable_lock s0 loc st : oreachable handler_of allowed s0 loc st -> olock st.
Proof. apply oreachable_invariant; [done|]. intros ev st1 st2. by apply oexec_lock. Qed.

End OrchestratorLemmas.

Lemma verify_shaped o : well_shaped (EmailVerify.verify_handler o).
Proof.
  destruct o as [|code]; do 2 eexists; (split; [reflexivity|]); intros r;
    cbn -[refetch_profile pseq fail_with];
    destruct (axios_settle r); [done|apply fail_with_exits| |apply fail_with_exits].
  apply exits_pseq_ctx; [apply refetch_profile_ctx|done].
Qed.

(** C31. The submit lock of the e-mail verification page (specification
    4.4, idempotence): in every reachable state an operation is in flight
    exactly while the phase is [Submitting], and while one is in flight
    every further invocation is rejected locally, with no second request. *)
Theorem verify_submit_lock s0 loc st o :
  oreachable EmailVerify.verify_handler EmailVerify.verify_allowed s0 loc st ->
  (is_Some (pending st) <-> fphase (oflow st) = Submitting)
  /\ (is_Some (pending st) -> oexec EmailVerify.verify_handler EmailVerify.verify_allowed (Invoke o) st = None).
Proof.
  intros Hr. pose proof (oreachable_lock _ _ verify_shaped _ _ _ Hr) as Hl. unfold olock in Hl.
  assert (Hiff : is_Some (pending st) <-> fphase (oflow st) = Submitting).
  { destruct (pending st) as [[q k]|]; split; intros H; [by destruct Hl|eauto|by destruct H|done]. }
  split; [done|]. intros Hp%Hiff. simpl. rewrite Hp, bool_decide_false by auto.
  by rewrite andb_false_r.
Qed.

Lemma verify_submit_lock_witness :
  exists st,
    oexec_all EmailVerify.verify_handler EmailVerify.verify_allowed [Invoke EmailVerify.SendCode]
      (oinit unverified_user "/email-verify") = Some st
    /\ oreachable EmailVerify.verify_handler EmailVerify.verify_allowed unverified_user "/email-verify" st
    /\ is_Some (pending st)
    /\ oexec EmailVerify.verify_handler EmailVerify.verify_allowed (Invoke EmailVerify.SendCode) st = None.
Proof.
  match goal with |- context [oexec_all ?h ?a ?evs ?s] =>
    destruct (oexec_all h a evs s) as [st|] eqn:E; [|vm_compute in E; discriminate] end.
  assert (Hr : oreachable EmailVerify.verify_handler EmailVerify.verify_allowed unverified_user "/email-verify" st)
    by exact (oexec_all_rtc _ _ _ _ _ E).
  pose proof E as E'. vm_compute in E'. injection E' as Hw.
  assert (Hp : is_Some (pending st)) by (rewrite <- Hw; eexists; reflexivity).
  exists st. split; [reflexivity|]. split; [exact Hr|]. split; [exact Hp|].
  exact (proj2 (verify_submit_lock _ _ _ EmailVerify.SendCode Hr) Hp).
Defined.
