(* ===== verification/App.v ===== *)
(** * App: routing, page lifetime and the interleaving of handlers

    Models [src/client/src/App.jsx] and how the pieces run together in
    one browser tab.  [App] renders one page per path ([route]); the
    [AppContextProvider] around it lives as long as the tab, the Login
    page only while the location is ["/login"].  Each time the router
    enters ["/login"] a fresh Login instance is mounted, with its own
    [useState] values ([initial_form]) and a new identity; leaving the
    path unmounts it, and React ignores [setLoading] on an unmounted
    instance.  Staying on the same path does not remount.

    A [world] holds the context's store, the location, the mounted Login
    instance if any, and the handlers suspended on a request ([tasks]),
    each tagged with its [owner]: the provider's bootstrap or a Login
    instance.  [exec] is one event of the tab: a reply delivered to one
    in-flight request (in any order: the network may reorder), a submit
    of the form (only when [can_submit] holds), an edit of a field (the
    e-mail sanitized as the browser does), the
    mode toggle, or a navigation by the user.  Handlers run between
    events up to their next [await] ([start]).

    Theorems: the submit lock (a mounted Login instance has at most one
    request in flight, and one exactly while [loading]) is an invariant
    of every reachable world; and three interleavings the code allows:
    a handler of an unmounted Login page still logs the user in and
    moves them to ["/"]; a remounted page can send the same registration
    twice; a late reply of the bootstrap check logs the user out after a
    successful login while keeping their profile; and liveness: from
    every reachable state, answering the requests in flight ([drain])
    empties the pool.  Further invariants of every reachable world: a
    Login instance is mounted exactly on the login route
    ([mounted_ok]), no handler chain has two requests in flight, hence at
    most [next_id + 1] requests are in flight ([pool_bounded]); and the
    links the Login page renders lead to routed pages. *)

From S2P Require Import Prelude Json Async Gateway AppContext Email Login.

Inductive element : Type := HomePage | LoginPage | EmailVerifyPage | ResetPasswordPage.

(** [<Routes>] *)
Definition route (path : string) : option element :=
  if String.eqb path "/" then Some HomePage
  else if String.eqb path "/login" then Some LoginPage
  else if String.eqb path "/email-verify" then Some EmailVerifyPage
  else if String.eqb path "/reset-password" then Some ResetPasswordPage
  else None.

Inductive owner : Type := Provider | LoginInst (id : nat).

#[export] Instance owner_eq_dec : EqDecision owner.
Proof. solve_decision. Defined.

Record task : Type := {
  towner : owner;
  treq : request;
  tresume : reply -> lhandler
}.

Record world : Type := {
  wctx : ctx_state;
  wloc : string;
  wlogin : option (nat * form);
  next_id : nat;
  tasks : list task
}.

Definition with_ctx (c : ctx_state) (w : world) : world :=
  {| wctx := c; wloc := wloc w; wlogin := wlogin w; next_id := next_id w; tasks := tasks w |}.

Definition with_login (l : option (nat * form)) (w : world) : world :=
  {| wctx := wctx w; wloc := wloc w; wlogin := l; next_id := next_id w; tasks := tasks w |}.

Definition with_tasks (ts : list task) (w : world) : world :=
  {| wctx := wctx w; wloc := wloc w; wlogin := wlogin w; next_id := next_id w; tasks := ts |}.

(** The router moves to [path]: a different path unmounts the current
    page and mounts the new one, a fresh Login instance for ["/login"]. *)
Definition navigate (path : string) (w : world) : world :=
  if String.eqb path (wloc w) then w
  else
    match route path with
    | Some LoginPage =>
        {| wctx := wctx w; wloc := path; wlogin := Some (next_id w, initial_form);
           next_id := S (next_id w); tasks := tasks w |}
    | _ => {| wctx := wctx w; wloc := path; wlogin := None;
              next_id := next_id w; tasks := tasks w |}
    end.

(** An effect performed by a handler of [o]. *)
Definition apply_weffect (o : owner) (e : leffect) (w : world) : world :=
  match e with
  | Ctx e' => with_ctx (apply_effect e' (wctx w)) w
  | SetLoading b =>
      match o, wlogin w with
      | LoginInst n, Some (m, f) =>
          if Nat.eqb n m then with_login (Some (m, set_loading b f)) w else w
      | _, _ => w
      end
  | Navigate path => navigate path w
  end.

(** Run a handler of [o] up to its next [await]. *)
Definition start (o : owner) (p : lhandler) (w : world) : world :=
  match run (apply_weffect o) p w with
  | (w', Some (q, k)) => with_tasks (tasks w' ++ [{| towner := o; treq := q; tresume := k |}]) w'
  | (w', None) => w'
  end.

Definition set_mode (b : bool) (f : form) : form :=
  {| isCreateAccount := b; name := name f; email := email f; password := password f;
     loading := loading f |}.
Definition set_name (s : string) (f : form) : form :=
  {| isCreateAccount := isCreateAccount f; name := s; email := email f; password := password f;
     loading := loading f |}.
Definition set_email (s : string) (f : form) : form :=
  {| isCreateAccount := isCreateAccount f; name := name f; email := s; password := password f;
     loading := loading f |}.
Definition set_password (s : string) (f : form) : form :=
  {| isCreateAccount := isCreateAccount f; name := name f; email := email f; password := s;
     loading := loading f |}.

Inductive event : Type :=
| Deliver (i : nat) (r : reply)
| Submit
| ToggleMode
| EditName (s : string)
| EditEmail (s : string)
| EditPassword (s : string)
| Visit (path : string).

(** Change the mounted Login page's form, when [ok] holds of it. *)
Definition on_login (ok : form -> bool) (g : form -> form) (w : world) : option world :=
  match wlogin w with
  | Some (n, f) => if ok f then Some (with_login (Some (n, g f)) w) else None
  | None => None
  end.

(** One event; [None] when the event cannot happen in [w]. *)
Definition exec (ev : event) (w : world) : option world :=
  match ev with
  | Deliver i r =>
      match tasks w !! i with
      | Some t => Some (start (towner t) (tresume t r) (with_tasks (delete i (tasks w)) w))
      | None => None
      end
  | Submit =>
      match wlogin w with
      | Some (n, f) => if can_submit f then Some (start (LoginInst n) (onSubmitHandler f) w) else None
      | None => None
      end
  | ToggleMode => on_login (fun _ => true) (fun f => set_mode (negb (isCreateAccount f)) f) w
  | EditName s => on_login isCreateAccount (set_name s) w
  | EditEmail s => on_login (fun _ => true) (set_email (sanitize_email s)) w
  | EditPassword s => on_login (fun _ => true) (set_password s) w
  | Visit path => Some (navigate path w)
  end.

Fixpoint exec_all (evs : list event) (w : world) : option world :=
  match evs with
  | [] => Some w
  | ev :: evs' => match exec ev w with Some w' => exec_all evs' w' | None => None end
  end.

(** The tab is opened at [path]: the page of [path] is mounted and the
    provider's [useEffect] starts [getAuthState]. *)
Definition init_world (path : string) : world :=
  start Provider (pmap Ctx getAuthState)
    {| wctx := initial; wloc := path;
       wlogin := match route path with Some LoginPage => Some (0, initial_form) | _ => None end;
       next_id := 1; tasks := [] |}.

Inductive step : world -> world -> Prop :=
| step_exec ev w w' : exec ev w = Some w' -> step w w'.

Definition reachable (w : world) : Prop := exists path, rtc step (init_world path) w.

(** The requests in flight on behalf of Login instance [n]. *)
Definition login_tasks (n : nat) (ts : list task) : list task :=
  filter (fun t => towner t = LoginInst n) ts.

(** ** The submit lock as an invariant *)

(** The rest of a Login handler after an [await]: it never sets
    [loading] except by a final [setLoading(false)]. *)
Fixpoint clears (p : lhandler) : Prop :=
  match p with
  | Done => False
  | Op (SetLoading b) k => b = false /\ k = Done
  | Op _ k => clears k
  | Await _ k => forall r, clears (k r)
  end.

Definition is_ctx (e : leffect) : Prop := match e with Ctx _ => True | _ => False end.

Definition task_ok (nid : nat) (t : task) : Prop :=
  match towner t with
  | Provider => forall r, all_ops is_ctx (tresume t r)
  | LoginInst m => m < nid /\ forall r, clears (tresume t r)
  end.

(** A mounted Login instance has one request in flight exactly while
    [loading], none otherwise. *)
Definition lock_inv (w : world) : Prop :=
  (forall n f, wlogin w = Some (n, f) ->
     n < next_id w /\ length (login_tasks n (tasks w)) = if loading f then 1 else 0)
  /\ Forall (task_ok (next_id w)) (tasks w).

(** The same while a handler of instance [n] runs, its own request
    having been answered. *)
Definition lock_inv_running (n : nat) (w : world) : Prop :=
  n < next_id w
  /\ (forall m f, wlogin w = Some (m, f) ->
        m < next_id w
        /\ (if Nat.eqb m n then loading f = true /\ login_tasks n (tasks w) = []
            else length (login_tasks m (tasks w)) = if loading f then 1 else 0))
  /\ Forall (task_ok (next_id w)) (tasks w).

(** What a page reading the context and the router sees. *)
Definition session (w : world) : bool * json * string :=
  (isLoggedIn (wctx w), userData (wctx w), wloc w).

(** Fill in the login form and submit it. *)
Definition login_events : list event := [EditEmail "a@b.c"; EditPassword "pw"; Submit].

(** Deliver replies to the oldest request in flight, [fuel] times at
    most, with no other event in between; [rf] picks the replies. *)
Fixpoint drain (fuel : nat) (rf : nat -> reply) (w : world) : world :=
  match fuel with
  | 0 => w
  | S n =>
      match exec (Deliver 0 (rf n)) w with
      | Some w' => drain n rf w'
      | None => w
      end
  end.

(** The rest of the task settles after at most [l] further replies. *)
Definition task_level (l : nat) (t : task) : Prop := forall r, bounded l (tresume t r).

(** Replies still owed to a pool whose tasks have levels [lv]. *)
Definition pool_levels (ts : list task) (lv : list nat) : Prop :=
  Forall2 (fun t l => l <= 1 /\ task_level l t) ts lv.

(** The Login page is mounted exactly when the location routes to it. *)
Definition mounted_ok (w : world) : Prop :=
  match route (wloc w) with
  | Some LoginPage => is_Some (wlogin w)
  | _ => wlogin w = None
  end.

(** The handlers that can own a request in [w]: the provider's and
    those of the Login instances mounted so far. *)
Definition owners_upto (nid : nat) : list owner := Provider :: map LoginInst (seq 0 nid).

(** ** Lemmas on the task pool *)

Lemma task_ok_mono nid nid' t : nid <= nid' -> task_ok nid t -> task_ok nid' t.
Proof. unfold task_ok. destruct (towner t); [done|]. intros ? [? ?]. split; [lia|done]. Qed.

Lemma login_tasks_app n l t :
  login_tasks n (l ++ [t]) = login_tasks n l ++ (if decide (towner t = LoginInst n) then [t] else []).
Proof. unfold login_tasks. rewrite filter_app, filter_cons, filter_nil. by case_decide. Qed.

Lemma login_tasks_delete n l i t :
  l !! i = Some t ->
  length (login_tasks n l) = length (login_tasks n (delete i l))
                             + (if decide (towner t = LoginInst n) then 1 else 0).
Proof.
  unfold login_tasks. revert i. induction l as [|t' l IH]; intros [|i] Hi; try done; simpl in *.
  - injection Hi as ->. rewrite filter_cons. destruct (decide _); simpl; lia.
  - rewrite !filter_cons. specialize (IH i Hi).
    destruct (decide (towner t' = LoginInst n)); simpl; lia.
Qed.

(** No request in flight belongs to an instance not yet created. *)
Lemma login_tasks_fresh nid l : Forall (task_ok nid) l -> login_tasks nid l = [].
Proof.
  unfold login_tasks. induction 1 as [|t l Ht Hl IH]; [done|].
  rewrite filter_cons. unfold task_ok in Ht.
  destruct (decide _) as [Heq|]; [rewrite Heq in Ht; lia|done].
Qed.

Lemma Forall_task_ok_S nid l : Forall (task_ok nid) l -> Forall (task_ok (S nid)) l.
Proof. intros H. eapply Forall_impl; [exact H|]. intros t. apply task_ok_mono. lia. Qed.

#[export] Hint Resolve task_ok_mono Forall_task_ok_S login_tasks_fresh : auth.

(** ** How each kind of effect affects the lock *)

(** [lock_inv] reads only the mounted instance, the id counter and the
    task pool. *)
Lemma lock_inv_ext w w' :
  wlogin w' = wlogin w -> next_id w' = next_id w -> tasks w' = tasks w ->
  lock_inv w -> lock_inv w'.
Proof. unfold lock_inv. intros -> -> ->. done. Qed.

Lemma navigate_running n path w : lock_inv_running n w -> lock_inv_running n (navigate path w).
Proof.
  intros (Hn & Hm & Hf). unfold navigate.
  destruct (String.eqb path (wloc w)); [by split_and!|].
  unfold lock_inv_running. destruct (route path) as [[]|]; simpl.
  all: try (split; [lia|]; split; [intros ? ? Hw; discriminate|]; done).
  split; [lia|]. split; [|by apply Forall_task_ok_S].
  intros m f [= <- <-]. split; [lia|].
  destruct (Nat.eqb_spec (next_id w) n); [lia|]. simpl. by rewrite login_tasks_fresh.
Qed.

Lemma navigate_inv path w : lock_inv w -> lock_inv (navigate path w).
Proof.
  intros [Hm Hf]. unfold navigate.
  destruct (String.eqb path (wloc w)); [by split|].
  unfold lock_inv. destruct (route path) as [[]|]; simpl.
  all: try (split; [intros ? ? Hw; discriminate|]; done).
  split; [|by apply Forall_task_ok_S].
  intros m f [= <- <-]. split; [lia|]. simpl. by rewrite login_tasks_fresh.
Qed.

(** The final [setLoading(false)] of instance [n]'s handler. *)
Lemma clear_finish n w :
  lock_inv_running n w -> lock_inv (apply_weffect (LoginInst n) (SetLoading false) w).
Proof.
  intros (Hn & Hm & Hf). simpl.
  destruct (wlogin w) as [[m f]|] eqn:Ew; [|split; [intros ? ? Hw; congruence|done]].
  specialize (Hm m f eq_refl).
  destruct (Nat.eqb_spec n m) as [<-|Hnm]; (split; [|done]); simpl; intros n' f' Hw.
  - injection Hw as <- <-. rewrite Nat.eqb_refl in Hm. destruct Hm as [Hlt [_ ->]]. done.
  - rewrite Ew in Hw. injection Hw as <- <-.
    destruct (Nat.eqb_spec m n); [congruence|]. done.
Qed.

Lemma running_append n w q k :
  lock_inv_running n w -> (forall r, clears (k r)) ->
  lock_inv (with_tasks (tasks w ++ [{| towner := LoginInst n; treq := q; tresume := k |}]) w).
Proof.
  intros (Hn & Hm & Hf) Hk. split; simpl.
  - intros m f Hw. destruct (Hm m f Hw) as [Hlt Hc]. split; [done|].
    rewrite login_tasks_app, length_app. simpl.
    destruct (Nat.eqb_spec m n) as [->|Hmn].
    + destruct Hc as [-> ->]. by rewrite decide_True.
    + rewrite decide_False by congruence. simpl. rewrite Hc. lia.
  - apply Forall_app. split; [done|]. repeat constructor; done.
Qed.

Lemma run_clears n p w :
  clears p -> lock_inv_running n w ->
  match run (apply_weffect (LoginInst n)) p w with
  | (w', Some (_, k)) => lock_inv_running n w' /\ forall r, clears (k r)
  | (w', None) => lock_inv w'
  end.
Proof.
  revert w. induction p as [|e k IH|q k IH]; intros w Hc Hw; simpl in *; [done| |done].
  destruct e as [e'|b|path]; simpl.
  - by apply IH.
  - destruct Hc as [-> ->]. by apply clear_finish.
  - apply IH; [done|]. by apply navigate_running.
Qed.

Lemma run_ctx o (p : lhandler) w :
  all_ops is_ctx p ->
  let '(w', pend) := run (apply_weffect o) p w in
  wlogin w' = wlogin w /\ next_id w' = next_id w /\ tasks w' = tasks w
  /\ match pend with Some (_, k) => forall r, all_ops is_ctx (k r) | None => True end.
Proof.
  revert w. induction p as [|e k IH|q k IH]; intros w Hp; simpl in *; [done| |done].
  destruct Hp as [He Hk]. destruct e as [e'|b|path]; [|done|done].
  exact (IH _ Hk).
Qed.

Lemma start_provider (p : lhandler) w : all_ops is_ctx p -> lock_inv w -> lock_inv (start Provider p w).
Proof.
  intros Hp Hw. unfold start. pose proof (run_ctx Provider p w Hp) as Hr.
  destruct (run _ p w) as [w' [[q k]|]]; destruct Hr as (E1 & E2 & E3 & Hk).
  - destruct Hw as [Hm Hf]. split; simpl.
    + intros n f Hl. rewrite E1 in Hl. rewrite login_tasks_app, length_app, E3, E2.
      rewrite decide_False by done. simpl. rewrite Nat.add_0_r. by apply Hm.
    + rewrite E3, E2. apply Forall_app. split; [done|]. repeat constructor. exact Hk.
  - by eapply lock_inv_ext.
Qed.

Lemma start_login n (p : lhandler) w :
  clears p -> lock_inv_running n w -> lock_inv (start (LoginInst n) p w).
Proof.
  intros Hp Hw. unfold start. pose proof (run_clears n p w Hp Hw) as Hr.
  destruct (run _ p w) as [w' [[q k]|]]; [|done].
  destruct Hr as [Hr Hk]. by apply running_append.
Qed.

(** ** Each event preserves the lock *)

Lemma clears_finally (p : lhandler) :
  all_ops not_loading p -> clears (pseq p (Op (SetLoading false) Done)).
Proof.
  induction p as [|e k IH|q k IH]; simpl; [done| |auto].
  intros [He Hk]. destruct e; [auto|done|auto].
Qed.

(** [onSubmitHandler] runs [setLoading(true)] and suspends on its post. *)
Lemma run_onSubmitHandler n f w :
  exists q k, run (apply_weffect (LoginInst n)) (onSubmitHandler f) w
              = (apply_weffect (LoginInst n) (SetLoading true) w, Some (q, k))
              /\ forall r, clears (k r).
Proof.
  pose proof (submit_try_no_loading f) as Hnl.
  unfold onSubmitHandler. destruct (submit_try f) as [| |q k] eqn:E.
  - unfold submit_try in E. by destruct (isCreateAccount f).
  - unfold submit_try in E. by destruct (isCreateAccount f).
  - exists q, (fun r => pseq (k r) (Op (SetLoading false) Done)). split; [done|].
    intros r. apply clears_finally, Hnl.
Qed.

Lemma submit_lock_inv n f w :
  lock_inv w -> wlogin w = Some (n, f) -> can_submit f = true ->
  lock_inv (start (LoginInst n) (onSubmitHandler f) w).
Proof.
  intros [Hm Hf] Hw Hs. unfold can_submit in Hs. apply andb_true_iff in Hs as [Hl _].
  apply negb_true_iff in Hl. destruct (Hm n f Hw) as [Hn Hlen]. rewrite Hl in Hlen.
  unfold start. destruct (run_onSubmitHandler n f w) as (q & k & -> & Hk).
  apply running_append; [|done]. simpl. rewrite Hw, Nat.eqb_refl.
  split; [done|]. split; [|done].
  intros m f' [= <- <-]. rewrite Nat.eqb_refl. split; [done|]. split; [done|].
  by apply nil_length_inv.
Qed.

Lemma deliver_lock_inv w i t r :
  lock_inv w -> tasks w !! i = Some t ->
  lock_inv (start (towner t) (tresume t r) (with_tasks (delete i (tasks w)) w)).
Proof.
  intros [Hm Hf] Ht. pose proof (Forall_lookup_1 _ _ _ _ Hf Ht) as Hok.
  assert (Hf' : Forall (task_ok (next_id w)) (delete i (tasks w))) by by apply Forall_delete.
  unfold task_ok in Hok. destruct (towner t) as [|n] eqn:Eo.
  - apply start_provider; [apply Hok|]. split; [|done]. simpl. intros m f Hw.
    destruct (Hm m f Hw) as [Hlt Hlen]. split; [done|].
    rewrite (login_tasks_delete m _ i t Ht), decide_False in Hlen by congruence. lia.
  - destruct Hok as [Hn Hk]. apply start_login; [apply Hk|].
    split; [done|]. split; [|done]. simpl. intros m f Hw.
    destruct (Hm m f Hw) as [Hlt Hlen]. split; [done|].
    rewrite (login_tasks_delete m _ i t Ht) in Hlen.
    destruct (Nat.eqb_spec m n) as [->|Hmn].
    + rewrite decide_True in Hlen by done.
      destruct (loading f); [|lia]. split; [done|]. apply nil_length_inv. lia.
    + rewrite decide_False in Hlen by congruence. lia.
Qed.

Lemma on_login_lock_inv ok g w w' :
  (forall f, loading (g f) = loading f) -> lock_inv w -> on_login ok g w = Some w' -> lock_inv w'.
Proof.
  intros Hg [Hm Hf]. unfold on_login.
  destruct (wlogin w) as [[n f]|] eqn:Ew; [|done]. destruct (ok f); [|done].
  intros [= <-]. split; [|done]. simpl. intros m f' [= <- <-]. rewrite Hg. by apply Hm.
Qed.

Lemma exec_lock_inv ev w w' : lock_inv w -> exec ev w = Some w' -> lock_inv w'.
Proof.
  intros Hw. destruct ev as [i r| | | s | s | s | path]; simpl.
  - destruct (tasks w !! i) as [t|] eqn:Ht; [|done]. intros [= <-]. by apply deliver_lock_inv.
  - destruct (wlogin w) as [[n f]|] eqn:Ew; [|done]. destruct (can_submit f) eqn:Hs; [|done].
    intros [= <-]. by apply submit_lock_inv.
  - apply on_login_lock_inv; [done|done].
  - apply on_login_lock_inv; [done|done].
  - apply on_login_lock_inv; [done|done].
  - apply on_login_lock_inv; [done|done].
  - intros [= <-]. by apply navigate_inv.
Qed.

(** ** Every reachable state: a generic induction *)

Lemma reachable_invariant (P : world -> Prop) :
  (forall path, P (init_world path)) ->
  (forall ev w w', reachable w -> P w -> exec ev w = Some w' -> P w') ->
  forall w, reachable w -> P w.
Proof.
  intros Hi Hs w [path Hr]. revert w Hr.
  apply rtc_ind_r; [apply Hi|]. intros w1 w2 Hr Hst IH.
  invc Hst. eapply Hs; [by exists path|exact IH|eassumption].
Qed.

Lemma init_lock_inv path : lock_inv (init_world path).
Proof.
  apply start_provider; [by apply all_ops_pmap|].
  split; [|constructor]. simpl. intros n f Hw.
  destruct (route path) as [[]|]; try discriminate. injection Hw as <- <-. simpl. lia.
Qed.

Lemma reachable_lock_inv w : reachable w -> lock_inv w.
Proof. apply reachable_invariant; [apply init_lock_inv|]. intros ev w0 w1 _. apply exec_lock_inv. Qed.

Lemma exec_all_rtc evs w w' : exec_all evs w = Some w' -> rtc step w w'.
Proof.
  revert w. induction evs as [|ev evs IH]; intros w; simpl; [by intros [= ->]|].
  destruct (exec ev w) as [w1|] eqn:E; [|done]. intros H.
  eapply rtc_l; [by econstructor|]. by apply IH.
Qed.

Lemma exec_all_reachable evs path w : exec_all evs (init_world path) = Some w -> reachable w.
Proof. intros H. exists path. by eapply exec_all_rtc. Qed.

(** ** Theorems *)

(** C7. The submit lock: in every reachable state of the tab, the
    mounted Login page has exactly one request in flight while [loading]
    is set and none otherwise. *)
Theorem submit_lock w n f :
  reachable w -> wlogin w = Some (n, f) ->
  length (login_tasks n (tasks w)) = if loading f then 1 else 0.
Proof. intros Hr Hw. by apply (reachable_lock_inv w Hr). Qed.

Lemma submit_lock_witness :
  exists w f, exec_all login_events (init_world "/login") = Some w
    /\ reachable w /\ wlogin w = Some (0, f) /\ loading f = true
    /\ length (login_tasks 0 (tasks w)) = 1.
Proof.
  destruct (exec_all login_events (init_world "/login")) as [w|] eqn:E; [|vm_compute in E; discriminate].
  assert (Hr : reachable w) by exact (exec_all_reachable _ _ _ E).
  pose proof E as E'. vm_compute in E'. injection E' as <-.
  eexists _, _. split; [exact E|]. split; [exact Hr|]. split; [reflexivity|]. split; [reflexivity|].
  exact (submit_lock _ _ _ Hr eq_refl).
Defined.

(** C9. Re-submission is refused locally: while a request of the mounted
    Login page is in flight, the submit event cannot fire, so no second
    request is issued by that page. *)
Theorem resubmit_rejected w n f :
  reachable w -> wlogin w = Some (n, f) -> login_tasks n (tasks w) <> [] ->
  exec Submit w = None.
Proof.
  intros Hr Hw Hne. pose proof (proj2 (proj1 (reachable_lock_inv w Hr) n f Hw)) as Hl.
  simpl. rewrite Hw. unfold can_submit.
  destruct (loading f); [done|]. destruct (login_tasks n (tasks w)); [done|]. simpl in Hl. lia.
Qed.

Lemma resubmit_rejected_witness :
  exists w f, exec_all login_events (init_world "/login") = Some w
    /\ reachable w /\ wlogin w = Some (0, f) /\ login_tasks 0 (tasks w) <> []
    /\ exec Submit w = None.
Proof.
  destruct (exec_all login_events (init_world "/login")) as [w|] eqn:E; [|vm_compute in E; discriminate].
  assert (Hr : reachable w) by exact (exec_all_reachable _ _ _ E).
  pose proof E as E'. vm_compute in E'. injection E' as Hw.
  assert (Hl : exists f, wlogin w = Some (0, f)) by (rewrite <- Hw; eexists; reflexivity).
  destruct Hl as [f Hl].
  assert (Hne : login_tasks 0 (tasks w) <> []) by (rewrite <- Hw; vm_compute; discriminate).
  exists w, f. split; [reflexivity|]. split; [exact Hr|]. split; [exact Hl|]. split; [exact Hne|].
  exact (resubmit_rejected w 0 f Hr Hl Hne).
Defined.

(** C12. A Login handler outlives its page: there is a reachable state
    in which no Login page is mounted and the user is away from ["/"],
    yet the delivery of a reply moves them to ["/"] with the session
    logged in.  Handlers of the provider never navigate, so only the
    handler of an unmounted Login page can do this (here: the user
    submitted, left for ["/reset-password"], and the post and profile
    replies arrived afterwards).  The specification (section 5) says a
    stale result is discarded and no dangling mutation is possible. *)
Theorem stale_login_handler_acts_after_unmount :
  exists w i r w', reachable w /\ wlogin w = None /\ wloc w <> "/"%string
    /\ exec (Deliver i r) w = Some w' /\ wloc w' = "/"%string /\ isLoggedIn (wctx w') = true.
Proof.
  set (evs := login_events ++ [Visit "/reset-password"; Deliver 1 (HttpReply 200 JNull)]).
  destruct (exec_all evs (init_world "/login")) as [w|] eqn:E; [|vm_compute in E; discriminate].
  pose proof E as E'. vm_compute in E'. injection E' as Hw.
  set (r := HttpReply 200 (JObj [("email", JStr "a@b.c")])).
  destruct (exec (Deliver 1 r) w) as [w'|] eqn:E2; [|rewrite <- Hw in E2; vm_compute in E2; discriminate].
  pose proof E2 as E2'. rewrite <- Hw in E2'. vm_compute in E2'. injection E2' as Hw'.
  exists w, 1, r, w'. split; [exact (exec_all_reachable _ _ _ E)|].
  split; [by rewrite <- Hw|]. split; [by rewrite <- Hw|]. split; [exact E2|].
  by rewrite <- Hw'.
Qed.

(** C17. The submit lock is per page instance: there is a reachable
    state with two requests in flight that post the same registration.
    One Login instance never has two requests in flight (see
    [reachable_owners]), so such a state arises only from leaving and
    re-entering ["/login"], which mounts a fresh page whose button is
    enabled.  The specification (section 4.4) requires a re-submission
    to be rejected to avoid duplicate account creation. *)
Theorem duplicate_registration_across_remount :
  exists w i j t1 t2, reachable w /\ i <> j /\ tasks w !! i = Some t1 /\ tasks w !! j = Some t2
    /\ treq t1 = treq t2 /\ exists name email password, treq t1 = PostRegister name email password.
Proof.
  set (fill := [ToggleMode; EditName "Ann"; EditEmail "a@b.c"; EditPassword "pw"; Submit]).
  destruct (exec_all (fill ++ [Visit "/"; Visit "/login"] ++ fill) (init_world "/login")) as [w|] eqn:E;
    [|vm_compute in E; discriminate].
  pose proof E as E'. vm_compute in E'. injection E' as Hw.
  exists w, 1, 2. do 2 eexists. split; [exact (exec_all_reachable _ _ _ E)|].
  split; [lia|]. split; [rewrite <- Hw; reflexivity|]. split; [rewrite <- Hw; reflexivity|].
  split; [reflexivity|]. by do 3 eexists.
Qed.

(** C11. A late answer to the bootstrap check undoes a login: the check
    issued at page load is answered [200 false] after the user has logged
    in, and the session ends logged out while [userData] holds the
    profile.  The specification (section 3) requires [currentUser] to be
    present only when the session is authenticated. *)
Theorem bootstrap_race_logs_out :
  exists w, reachable w /\ isLoggedIn (wctx w) = false /\ userData (wctx w) <> JNull.
Proof.
  set (evs := login_events ++ [Deliver 1 (HttpReply 200 JNull);
                               Deliver 1 (HttpReply 200 (JObj [("email", JStr "a@b.c")]));
                               Deliver 0 (HttpReply 200 (JBool false))]).
  destruct (exec_all evs (init_world "/login")) as [w|] eqn:E; [|vm_compute in E; discriminate].
  exists w. split; [exact (exec_all_reachable _ _ _ E)|].
  vm_compute in E. injection E as <-. split; [reflexivity|]. discriminate.
Qed.

(** ** The task pool drains *)

Lemma apply_weffect_tasks o e w : tasks (apply_weffect o e w) = tasks w.
Proof. destruct e; simpl; try unfold navigate; repeat case_match; done. Qed.

Lemma run_tasks o (p : lhandler) w : tasks (run (apply_weffect o) p w).1 = tasks w.
Proof.
  revert w. induction p as [|e k IH|q k IH]; intros w; simpl; [done| |done].
  by rewrite IH, apply_weffect_tasks.
Qed.

(** Starting a handler adds at most its own suspended rest to the pool,
    one level below the handler's bound. *)
Lemma start_level o (p : lhandler) w l :
  bounded l p ->
  tasks (start o p w) = tasks w
  \/ exists t l', l = S l' /\ task_level l' t /\ tasks (start o p w) = tasks w ++ [t].
Proof.
  intros Hb. unfold start. pose proof (run_tasks o p w) as Ht.
  pose proof (run_bounded (apply_weffect o) l p w Hb) as Hr.
  destruct (run _ p w) as [w' [[q k]|]]; simpl in *; [|by left].
  right. destruct Hr as (l' & -> & Hk).
  exists {| towner := o; treq := q; tresume := k |}, l'. split; [done|]. split; [exact Hk|].
  simpl. by rewrite Ht.
Qed.

Lemma deliver0_decreases w t ts l lv r :
  tasks w = t :: ts -> pool_levels (t :: ts) (l :: lv) ->
  exists w' lv', exec (Deliver 0 r) w = Some w' /\ pool_levels (tasks w') lv'
                 /\ sum_list (map S lv') < sum_list (map S (l :: lv)).
Proof.
  intros Hw Hp. apply Forall2_cons_1 in Hp as [[Hl Ht] Hp].
  simpl. rewrite Hw. simpl.
  destruct (start_level (towner t) (tresume t r) (with_tasks ts w) l (Ht r))
    as [Heq|(t' & l' & -> & Ht' & Heq)].
  - exists (start (towner t) (tresume t r) (with_tasks ts w)), lv.
    rewrite Heq. split; [done|]. split; [done|]. simpl. lia.
  - exists (start (towner t) (tresume t r) (with_tasks ts w)), (lv ++ [l']).
    rewrite Heq. split; [done|]. split.
    + apply Forall2_app; [done|]. repeat constructor; [lia|done].
    + rewrite map_app, sum_list_with_app. simpl. lia.
Qed.

Lemma drain_empties fuel rf w lv :
  pool_levels (tasks w) lv -> sum_list (map S lv) <= fuel -> tasks (drain fuel rf w) = [].
Proof.
  revert w lv. induction fuel as [|n IH]; intros w lv Hp Hle.
  - destruct lv as [|l lv]; [|simpl in Hle; lia]. by apply Forall2_nil_inv_r in Hp.
  - change (drain (S n) rf w) with
      (match exec (Deliver 0 (rf n)) w with Some w' => drain n rf w' | None => w end).
    destruct (tasks w) as [|t ts] eqn:Hw.
    + simpl. by rewrite Hw.
    + destruct lv as [|l lv]; [by apply Forall2_nil_inv_r in Hp|].
      destruct (deliver0_decreases w t ts l lv (rf n) Hw Hp) as (w' & lv' & -> & Hp' & Hlt).
      apply (IH w' lv'); [done|lia].
Qed.

(** Every request in flight owes at most two more replies. *)
Lemma exec_pool_level ev w w' :
  Forall (task_level 1) (tasks w) -> exec ev w = Some w' -> Forall (task_level 1) (tasks w').
Proof.
  intros Hp. destruct ev as [i r| | | s | s | s | path]; simpl.
  - destruct (tasks w !! i) as [t|] eqn:Ht; [|done]. intros [= <-].
    pose proof (Forall_lookup_1 _ _ _ _ Hp Ht) as Hl.
    destruct (start_level (towner t) (tresume t r) (with_tasks (delete i (tasks w)) w) 1 (Hl r))
      as [->|(t' & l' & Hl' & Ht' & ->)]; simpl; [by apply Forall_delete|].
    apply Forall_app. split; [by apply Forall_delete|]. constructor; [|done].
    intros r'. eapply bounded_mono; [|apply Ht']. lia.
  - destruct (wlogin w) as [[n f]|]; [|done]. destruct (can_submit f); [|done]. intros [= <-].
    destruct (start_level (LoginInst n) (onSubmitHandler f) w 2 (onSubmitHandler_bounded f))
      as [->|(t' & l' & Hl' & Ht' & ->)]; [done|].
    apply Forall_app. split; [done|]. constructor; [|done]. injection Hl' as <-. done.
  - unfold on_login. destruct (wlogin w) as [[n f]|]; [|done]. by intros [= <-].
  - unfold on_login. destruct (wlogin w) as [[n f]|]; [|done]. destruct (isCreateAccount f); [|done].
    by intros [= <-].
  - unfold on_login. destruct (wlogin w) as [[n f]|]; [|done]. by intros [= <-].
  - unfold on_login. destruct (wlogin w) as [[n f]|]; [|done]. by intros [= <-].
  - intros [= <-]. unfold navigate. by repeat case_match.
Qed.

Lemma reachable_pool_level w : reachable w -> Forall (task_level 1) (tasks w).
Proof.
  apply (reachable_invariant (fun w => Forall (task_level 1) (tasks w)));
    [|intros ev w0 w1 _; apply exec_pool_level].
  intros path. unfold init_world.
  match goal with |- context [start Provider ?p ?w1] =>
    destruct (start_level Provider p w1 2 (bounded_pmap _ _ _ getAuthState_bounded))
      as [->|(t' & l' & Hl' & Ht' & ->)]; [done|] end.
  constructor; [|done]. injection Hl' as <-. done.
Qed.

(** C13. The pool of requests drains: from any reachable state, if the
    user does nothing more, delivering replies (whatever they are) to the
    oldest request in flight, twice as many times as there are requests,
    leaves no request in flight: every handler of the client runs to
    completion. *)
Theorem pool_drains w rf :
  reachable w -> tasks (drain (2 * length (tasks w)) rf w) = [].
Proof.
  intros Hr. apply (drain_empties _ rf w (map (fun _ => 1) (tasks w))).
  - pose proof (reachable_pool_level w Hr) as Hp. clear Hr. unfold pool_levels.
    induction Hp as [|t ts Ht Hts IH]; simpl; constructor; [split; [lia|done]|done].
  - clear Hr. induction (tasks w) as [|t ts IH]; simpl; lia.
Qed.

Lemma pool_drains_witness :
  exists w, exec_all login_events (init_world "/login") = Some w /\ reachable w
    /\ length (tasks w) = 2 /\ tasks (drain (2 * length (tasks w)) (fun _ => NetworkError) w) = [].
Proof.
  destruct (exec_all login_events (init_world "/login")) as [w|] eqn:E; [|vm_compute in E; discriminate].
  assert (Hr : reachable w) by exact (exec_all_reachable _ _ _ E).
  pose proof E as E'. vm_compute in E'. injection E' as Hw.
  exists w. split; [reflexivity|]. split; [exact Hr|]. split; [rewrite <- Hw; reflexivity|].
  exact (pool_drains w (fun _ => NetworkError) Hr).
Defined.

(** C10. What the button says: in every reachable state, the mounted Login
    page's submit button reads "Loading..." exactly when a request of that
    page is in flight; otherwise it reads "Sign Up" or "Login" by mode. *)
Theorem button_label_tracks_request w n f :
  reachable w -> wlogin w = Some (n, f) ->
  button_label f = if bool_decide (login_tasks n (tasks w) = []) then
                     (if isCreateAccount f then "Sign Up" else "Login")%string
                   else "Loading..."%string.
Proof.
  intros Hr Hw. pose proof (proj2 (proj1 (reachable_lock_inv w Hr) n f Hw)) as Hl.
  unfold button_label. destruct (loading f).
  - rewrite bool_decide_false; [done|]. intros Hn. rewrite Hn in Hl. discriminate.
  - rewrite bool_decide_true; [done|]. by apply nil_length_inv.
Qed.

Lemma button_label_tracks_request_witness :
  exists w f, exec_all login_events (init_world "/login") = Some w /\ reachable w
    /\ wlogin w = Some (0, f) /\ button_label f = "Loading..."%string.
Proof.
  destruct (exec_all login_events (init_world "/login")) as [w|] eqn:E; [|vm_compute in E; discriminate].
  assert (Hr : reachable w) by exact (exec_all_reachable _ _ _ E).
  pose proof E as E'. vm_compute in E'. injection E' as Hw.
  assert (Hl : exists f, wlogin w = Some (0, f)) by (rewrite <- Hw; eexists; reflexivity).
  destruct Hl as [f Hl]. exists w, f. split; [reflexivity|]. split; [exact Hr|]. split; [exact Hl|].
  rewrite (button_label_tracks_request w 0 f Hr Hl).
  rewrite <- Hw. vm_compute. reflexivity.
Defined.

(** ** Which page is mounted *)

Lemma navigate_mounted path w : mounted_ok w -> mounted_ok (navigate path w).
Proof.
  unfold navigate. destruct (String.eqb_spec path (wloc w)); [done|]. intros _.
  unfold mounted_ok. destruct (route path) as [[]|] eqn:E; simpl; rewrite E; eauto.
Qed.

Lemma with_login_mounted n f w :
  is_Some (wlogin w) -> mounted_ok w -> mounted_ok (with_login (Some (n, f)) w).
Proof.
  intros [l Hl]. unfold mounted_ok; simpl. rewrite Hl. by destruct (route (wloc w)) as [[]|]; eauto.
Qed.

Lemma apply_weffect_mounted o e w : mounted_ok w -> mounted_ok (apply_weffect o e w).
Proof.
  intros Hm. destruct e as [e|b|path]; simpl; [done| |by apply navigate_mounted].
  destruct o as [|n], (wlogin w) as [[m f]|] eqn:Ew; try done.
  destruct (Nat.eqb n m); [|done]. apply with_login_mounted; [by rewrite Ew|done].
Qed.

Lemma start_mounted o (p : lhandler) w : mounted_ok w -> mounted_ok (start o p w).
Proof.
  intros Hm. pose proof (run_preserves (apply_weffect o) mounted_ok p w
    (apply_weffect_mounted o) Hm) as Hr.
  unfold start. by destruct (run _ p w) as [w' [[q k]|]].
Qed.

Lemma exec_mounted ev w w' : mounted_ok w -> exec ev w = Some w' -> mounted_ok w'.
Proof.
  intros Hm. destruct ev as [i r| | | s | s | s | path]; simpl.
  1: { destruct (tasks w !! i); [|done]. intros [= <-]. by apply start_mounted. }
  1: { destruct (wlogin w) as [[n f]|]; [|done]. destruct (can_submit f); [|done].
       intros [= <-]. by apply start_mounted. }
  all: try (intros [= <-]; by apply navigate_mounted).
    all: unfold on_login; destruct (wlogin w) as [[n f]|] eqn:Ew; [|done];
      intros H; repeat case_match; simplify_eq; apply with_login_mounted; [by rewrite Ew|done].
Qed.

Lemma init_mounted path : mounted_ok (init_world path).
Proof.
  apply start_mounted. unfold mounted_ok; simpl. destruct (route path) as [[]|]; eauto.
Qed.

Lemma route_login_iff path : route path = Some LoginPage <-> path = "/login"%string.
Proof.
  unfold route. split; [|by intros ->].
  destruct (String.eqb path "/"); [done|].
  destruct (String.eqb path "/login") eqn:E; [intros _; by apply String.eqb_eq|].
  destruct (String.eqb path "/email-verify"); [done|]. by destruct (String.eqb path "/reset-password").
Qed.

Lemma reachable_mounted_ok w : reachable w -> mounted_ok w.
Proof. apply reachable_invariant; [apply init_mounted|]. intros ev w0 w1 _. apply exec_mounted. Qed.

(** C28. Well-formedness of the tab: in every reachable state a Login
    instance is mounted exactly when the location is ["/login"], the
    path [App.jsx] routes to [<Login />]; no event, handler effect or
    navigation leaves an instance mounted elsewhere or the login route
    without one. *)
Theorem reachable_mounted w : reachable w -> (is_Some (wlogin w) <-> wloc w = "/login"%string).
Proof.
  intros Hr. pose proof (reachable_mounted_ok w Hr) as Hm. unfold mounted_ok in Hm.
  rewrite <- route_login_iff.
  destruct (route (wloc w)) as [[]|]; [rewrite Hm; split; [by intros []|by intros [=]]| |
    rewrite Hm; split; [by intros []|by intros [=]]..].
  split; [done|intros _; exact Hm].
Qed.

Lemma reachable_mounted_witness :
  exists w, exec_all (login_events ++ [Visit "/"]) (init_world "/login") = Some w
    /\ reachable w /\ wlogin w = None /\ wloc w <> "/login"%string.
Proof.
  destruct (exec_all (login_events ++ [Visit "/"]) (init_world "/login")) as [w|] eqn:E;
    [|vm_compute in E; discriminate].
  assert (Hr : reachable w) by exact (exec_all_reachable _ _ _ E).
  pose proof E as E'. vm_compute in E'. injection E' as Hw.
  assert (Hl : wlogin w = None) by (rewrite <- Hw; reflexivity).
  exists w. split; [reflexivity|]. split; [exact Hr|]. split; [exact Hl|].
  intros Hloc. apply (reachable_mounted w Hr) in Hloc. rewrite Hl in Hloc. by destruct Hloc.
Defined.

(** ** One request in flight per handler chain *)

Lemma start_tasks o (p : lhandler) w :
  tasks (start o p w) = tasks w \/ exists t, towner t = o /\ tasks (start o p w) = tasks w ++ [t].
Proof.
  unfold start. pose proof (run_tasks o p w) as Ht.
  destruct (run _ p w) as [w' [[q k]|]]; simpl in *; [right|by left].
  exists {| towner := o; treq := q; tresume := k |}. split; [done|]. by rewrite Ht.
Qed.

Lemma owners_snoc ts t :
  NoDup (map towner ts) -> towner t ∉ map towner ts -> NoDup (map towner (ts ++ [t])).
Proof.
  intros Hn Ho. rewrite map_app, Permutation_app_comm. simpl. by apply NoDup_cons.
Qed.

Lemma owners_deliver ts i t t' :
  ts !! i = Some t -> towner t' = towner t -> NoDup (map towner ts) ->
  NoDup (map towner (delete i ts)) /\ NoDup (map towner (delete i ts ++ [t'])).
Proof.
  intros Hi Ho Hn. pose proof (Permutation_map towner (delete_Permutation _ _ _ Hi)) as Hp.
  rewrite Hp in Hn. simpl in Hn. apply NoDup_cons in Hn as [Hnot Hn].
  split; [done|]. apply owners_snoc; [done|by rewrite Ho].
Qed.

Lemma login_tasks_nil n ts : login_tasks n ts = [] -> LoginInst n ∉ map towner ts.
Proof.
  rewrite list_elem_of_In. intros H Hin. apply in_map_iff in Hin as (t & Ho & Ht).
  apply (filter_nil_not_elem_of _ _ t H Ho). by apply list_elem_of_In.
Qed.

Lemma exec_owners ev w w' :
  lock_inv w -> NoDup (map towner (tasks w)) -> exec ev w = Some w' -> NoDup (map towner (tasks w')).
Proof.
  intros [Hm _] Hn. destruct ev as [i r| | | s | s | s | path]; simpl.
  1: { destruct (tasks w !! i) as [t|] eqn:Ht; [|done]. intros [= <-].
       destruct (start_tasks (towner t) (tresume t r) (with_tasks (delete i (tasks w)) w))
         as [->|(t' & Ho & ->)]; simpl.
       - exact (proj1 (owners_deliver _ i t t Ht eq_refl Hn)).
       - exact (proj2 (owners_deliver _ i t t' Ht Ho Hn)). }
  1: { destruct (wlogin w) as [[n f]|] eqn:Ew; [|done]. destruct (can_submit f) eqn:Hs; [|done].
       intros [= <-]. destruct (start_tasks (LoginInst n) (onSubmitHandler f) w)
         as [->|(t' & Ho & ->)]; [done|].
       apply owners_snoc; [done|]. rewrite Ho. apply login_tasks_nil, nil_length_inv.
       destruct (Hm n f eq_refl) as [_ ->]. unfold can_submit in Hs. by destruct (loading f). }
  all: try (intros [= <-]; pose proof (apply_weffect_tasks Provider (Navigate path) w) as Hnav;
            simpl in Hnav; by rewrite Hnav).
  all: unfold on_login; destruct (wlogin w) as [[n f]|]; [|done];
    intros H; repeat case_match; by simplify_eq/=.
Qed.

Lemma init_owners path : NoDup (map towner (tasks (init_world path))).
Proof.
  unfold init_world.
  match goal with |- context [start Provider ?p ?w1] =>
    destruct (start_tasks Provider p w1) as [->|(t & _ & ->)] end; simpl.
  - constructor.
  - apply NoDup_singleton.
Qed.

Lemma reachable_owners w : reachable w -> NoDup (map towner (tasks w)).
Proof.
  apply (reachable_invariant (fun w => NoDup (map towner (tasks w)))); [apply init_owners|].
  intros ev w0 w1 Hr Hn. apply exec_owners; [by apply reachable_lock_inv|done].
Qed.

Lemma owners_in_universe w : lock_inv w -> incl (map towner (tasks w)) (owners_upto (next_id w)).
Proof.
  intros [_ Hf] o Ho. apply in_map_iff in Ho as (t & <- & Ht).
  eapply Forall_forall in Hf; [|by apply list_elem_of_In]. unfold task_ok in Hf.
  unfold owners_upto. destruct (towner t) as [|m]; [by left|]. right.
  apply in_map, in_seq. destruct Hf. lia.
Qed.

(** C29. Bound on the requests in flight: in every reachable state the
    tab has at most [next_id + 1] requests in flight, one for the
    provider's bootstrap chain and one for each Login instance mounted so
    far, whatever the user did and however the network ordered the
    replies; no handler chain ever has two requests in flight. *)
Theorem pool_bounded w : reachable w -> length (tasks w) <= S (next_id w).
Proof.
  intros Hr. rewrite <- (length_map towner).
  replace (S (next_id w)) with (length (owners_upto (next_id w)))
    by (simpl; by rewrite length_map, length_seq).
  apply submseteq_length, NoDup_submseteq; [by apply reachable_owners|].
  intros o. rewrite !list_elem_of_In. by apply owners_in_universe, reachable_lock_inv.
Qed.

Lemma pool_bounded_witness :
  exists w, exec_all login_events (init_world "/login") = Some w /\ reachable w
    /\ length (tasks w) = 2 /\ next_id w = 1 /\ length (tasks w) <= S (next_id w).
Proof.
  destruct (exec_all login_events (init_world "/login")) as [w|] eqn:E;
    [|vm_compute in E; discriminate].
  assert (Hr : reachable w) by exact (exec_all_reachable _ _ _ E).
  pose proof E as E'. vm_compute in E'. injection E' as Hw.
  exists w. split; [reflexivity|]. split; [exact Hr|].
  split; [by rewrite <- Hw|]. split; [by rewrite <- Hw|]. exact (pool_bounded w Hr).
Defined.

(** C30. The Login page's links lead to pages: every [<Link>] the page
    renders, in either mode and whatever the form holds, targets a path
    that the router of [App.jsx] maps to a page, and following it from
    the login route unmounts the Login instance. *)
Theorem login_links_routed f to text w :
  In (VLink to text) (render f) -> wloc w = "/login"%string ->
  is_Some (route to) /\ wlogin (navigate to w) = None.
Proof.
  unfold render, toggle_item. intros Hin Hw.
  assert (Hto : to = "/"%string \/ to = "/reset-password"%string).
  { destruct (isCreateAccount f); simpl in Hin;
      repeat (destruct Hin as [Hin|Hin]; [try (injection Hin as <- _; auto); discriminate|]); done. }
  unfold navigate. rewrite Hw. by destruct Hto as [-> | ->]; simpl; eauto.
Qed.

Lemma login_links_routed_witness :
  In (VLink "/reset-password" "Forgot password?") (render initial_form)
  /\ wloc (init_world "/login") = "/login"%string
  /\ is_Some (route "/reset-password") /\ wlogin (navigate "/reset-password" (init_world "/login")) = None.
Proof.
  assert (Hin : In (VLink "/reset-password" "Forgot password?") (render initial_form))
    by (simpl; tauto).
  assert (Hw : wloc (init_world "/login") = "/login"%string) by reflexivity.
  split; [exact Hin|]. split; [exact Hw|].
  exact (login_links_routed initial_form _ _ _ Hin Hw).
Defined.
